(** * The backup "list" subcommand (pkg/cmd/backup/list.go)

    A shallow embedding of [ListOptions.Complete], [ListOptions.Run] and
    [buildBackupJobInfo], and the properties of the listing flow proved
    about them.

    Conventions.
    - A Go [error] value is an element of an abstract type with the method
      [Error]; the [nil] error is [None].
    - A Go call that can panic returns [exec A]: its results, or [Panic].
    - A [map[string]interface{}] is a [gmap string value]; indexing a key
      that is missing yields the nil interface value, as in Go.
    - The collaborators (kubeconfig loader, resource builder, dynamic
      client, table renderer) are values passed in: the theorems hold for
      every behaviour they may have. *)

From stdpp Require Import gmap strings list fin_maps.
From Stdlib Require Import ZArith Ascii.

Set Warnings "-register-all".

(** ** Go values *)

(** A dynamically typed value as the JSON decoder of the cluster client
    produces it inside an unstructured object: [interface{}] holding nil, a
    bool, an int64, a float64 (kept as its bit pattern), a string, a slice
    or a string-keyed map. *)
Inductive value : Type :=
| VNil
| VBool (b : bool)
| VInt (n : Z)
| VFloat (bits : Z)
| VString (s : string)
| VList (l : list value)
| VMap (m : gmap string value).

(** The outcome of a Go call that may panic. *)
Inductive exec (A : Type) : Type :=
| Ok (a : A)
| Panic.
Arguments Ok {A} a.
Arguments Panic {A}.

#[global] Instance exec_ret : MRet exec := fun _ a => Ok a.
#[global] Instance exec_bind : MBind exec := fun _ _ f m =>
  match m with
  | Ok a => f a
  | Panic => Panic
  end.

(** [m[k]] on a [map[string]interface{}]: the zero value (nil) when the key
    is missing. *)
Definition index (m : gmap string value) (k : string) : value :=
  default VNil (m !! k).

(** [v == nil] on an interface value. *)
Definition is_nil (v : value) : bool :=
  match v with
  | VNil => true
  | _ => false
  end.

(** The type assertion [v.(string)], in its panicking one-result form. *)
Definition assert_string (v : value) : exec string :=
  match v with
  | VString s => Ok s
  | _ => Panic
  end.

(** The type assertion [v.(map[string]interface{})]. *)
Definition assert_map (v : value) : exec (gmap string value) :=
  match v with
  | VMap m => Ok m
  | _ => Panic
  end.

(** Following a pointer, [p.f] or a method that reads through its
    receiver: a nil pointer panics. A pointer is [None] while it is nil. *)
Definition deref {A : Type} (p : option A) : exec A :=
  match p with
  | Some a => Ok a
  | None => Panic
  end.

(** ** k8s.io/apimachinery: unstructured objects *)

Module unstructured.

(** [unstructured.Unstructured]: a wrapper around the decoded object. *)
Record Unstructured : Type := { Object : gmap string value }.

(** [NestedFieldNoCopy(obj, f1, f2)] for a path of two fields: the value
    found, or [None] when a field is missing, the walk meets nil, or an
    intermediate value is not a map. *)
Definition nested2 (obj : gmap string value) (f1 f2 : string) : option value :=
  match obj !! f1 with
  | Some (VMap m) => m !! f2
  | _ => None
  end.

(** [getNestedString(obj, f1, f2)]: the empty string unless the field is
    there and is a string. *)
Definition getNestedString (obj : gmap string value) (f1 f2 : string) : string :=
  match nested2 obj f1 f2 with
  | Some (VString s) => s
  | _ => ""
  end.

Definition GetName (u : Unstructured) : string :=
  getNestedString (Object u) "metadata" "name".

Definition GetNamespace (u : Unstructured) : string :=
  getNestedString (Object u) "metadata" "namespace".

(** The string held by a value, if it is one. *)
Definition as_string (v : value) : option string :=
  match v with
  | VString s => Some s
  | _ => None
  end.

(** [NestedStringMap]: the map with every value asserted to be a string;
    a single value of another type makes the whole lookup fail. *)
Definition string_map (m : gmap string value) : option (gmap string string) :=
  if decide (map_Forall (fun _ v => is_Some (as_string v)) m)
  then Some (omap as_string m)
  else None.

(** [GetLabels]: [metadata.labels] as a [map[string]string]; the nil map
    (no entries) when it is missing or malformed, the error dropped. *)
Definition GetLabels (u : Unstructured) : gmap string string :=
  match nested2 (Object u) "metadata" "labels" with
  | Some (VMap m) => default ∅ (string_map m)
  | _ => ∅
  end.

End unstructured.

(** ** k8s.io/apimachinery: schema and meta *)

Module schema.

Record GroupVersionResource : Type :=
  { Group : string; Version : string; Resource : string }.

Record GroupVersionKind : Type :=
  { KindGroup : string; KindVersion : string; Kind : string }.

End schema.

Module meta.

(** [meta.RESTMapping]: the resource a listed object is served under. *)
Record RESTMapping : Type :=
  { Resource : schema.GroupVersionResource;
    GroupVersionKind : schema.GroupVersionKind }.

End meta.

(** ** k8s.io/cli-runtime: resource *)

Module resource.

(** [resource.Info], the entry the builder returns for a matched object.
    The builder of [Run] is never made local, so [Mapping] is present. *)
Record Info : Type :=
  { Namespace : string;
    Name : string;
    Mapping : meta.RESTMapping }.

Definition ResourceMapping (i : Info) : meta.RESTMapping := Mapping i.

Record FilenameOptions : Type :=
  { Filenames : list string;
    Kustomize : string;
    Recursive_ : bool }.

End resource.

Module rest.

(** [rest.Config], which the command only hands on to the client
    constructor: the fields that name the API server. *)
Record Config : Type := { Host : string; APIPath : string }.

End rest.

Module describe.

Record DescriberSettings : Type :=
  { ShowEvents : bool; ChunkSize : Z }.

End describe.

(** ** pkg/utils: the output record *)

Module utils.

(** Modelled from the spec: [utils.BackupJobInfo] (pkg/utils is not part of
    the sources at hand). Six string fields, all empty in the zero value. *)
Record BackupJobInfo : Type :=
  { Namespace : string;
    Name : string;
    Phase : string;
    CompletionTime : string;
    StartTime : string;
    Labels : string }.

(** [utils.BackupJobInfo{}] *)
Definition zero : BackupJobInfo :=
  {| Namespace := ""; Name := ""; Phase := ""; CompletionTime := "";
     StartTime := ""; Labels := "" |}.

(** Field assignments [info.F = x]. *)
Definition set_Namespace (x : string) (i : BackupJobInfo) : BackupJobInfo :=
  {| Namespace := x; Name := Name i; Phase := Phase i;
     CompletionTime := CompletionTime i; StartTime := StartTime i;
     Labels := Labels i |}.

Definition set_Name (x : string) (i : BackupJobInfo) : BackupJobInfo :=
  {| Namespace := Namespace i; Name := x; Phase := Phase i;
     CompletionTime := CompletionTime i; StartTime := StartTime i;
     Labels := Labels i |}.

Definition set_Phase (x : string) (i : BackupJobInfo) : BackupJobInfo :=
  {| Namespace := Namespace i; Name := Name i; Phase := x;
     CompletionTime := CompletionTime i; StartTime := StartTime i;
     Labels := Labels i |}.

Definition set_CompletionTime (x : string) (i : BackupJobInfo) : BackupJobInfo :=
  {| Namespace := Namespace i; Name := Name i; Phase := Phase i;
     CompletionTime := x; StartTime := StartTime i;
     Labels := Labels i |}.

Definition set_StartTime (x : string) (i : BackupJobInfo) : BackupJobInfo :=
  {| Namespace := Namespace i; Name := Name i; Phase := Phase i;
     CompletionTime := CompletionTime i; StartTime := x;
     Labels := Labels i |}.

Definition set_Labels (x : string) (i : BackupJobInfo) : BackupJobInfo :=
  {| Namespace := Namespace i; Name := Name i; Phase := Phase i;
     CompletionTime := CompletionTime i; StartTime := StartTime i;
     Labels := x |}.

End utils.

(** ** Errors *)

(** Go's [error] interface, with the one method the code calls, and the
    conversion of a non-empty error list into the aggregate error of
    k8s.io/apimachinery/pkg/util/errors. *)
Class GoError (error : Type) : Type :=
  { Error : error -> string;
    aggregate : list error -> error }.

Module utilerrors.

(** [utilerrors.NewAggregate(errlist)]: nil for an empty list, otherwise
    the aggregate of the errors (the list holds no nil entry here). *)
Definition NewAggregate {error : Type} `{!GoError error}
    (errlist : list error) : option error :=
  if decide (List.length errlist = 0) then None else Some (aggregate errlist).

End utilerrors.

(** ** Field projection *)

(** [fmt.Sprintf("%s:%s ", k, v)] *)
Definition Sprintf_label (k v : string) : string :=
  k +:+ ":" +:+ v +:+ " ".

(** *** Vocabulary for the Labels string

    What it means for a string to hold label pairs, each written
    [key:value] and followed by one space, and how such a string is read
    back. These follow the wording of the specification, not the code. *)

(** The pairs of [entries], formatted and concatenated in list order. *)
Definition format_labels (entries : list (string * string)) : string :=
  foldr (fun '(k, v) rest => Sprintf_label k v +:+ rest) "" entries.

(** Does the character occur in the string? *)
Fixpoint occurs (c : ascii) (s : string) : bool :=
  match s with
  | "" => false
  | String c' s' => if decide (c' = c) then true else occurs c s'
  end.

(** Reading pairs back, one character at a time: a key runs up to the
    first colon, its value up to the next space. [key] is [None] while a
    key is being read and holds the finished key while its value is;
    [acc] is the text read so far. *)
Fixpoint scan (s : string) (key : option string) (acc : string)
    : list (string * string) :=
  match s with
  | "" => []
  | String c s' =>
    match key with
    | None =>
      if decide (c = ":"%char) then scan s' (Some acc) ""
      else scan s' None (acc +:+ String c "")
    | Some k =>
      if decide (c = " "%char) then (k, acc) :: scan s' None ""
      else scan s' (Some k) (acc +:+ String c "")
    end
  end.

Definition parse_labels (s : string) : list (string * string) :=
  scan s None "".

(** A pair that reads back as itself: no colon in the key, no space in
    the value. Every label Kubernetes accepts is of this kind. *)
Definition plain_label (entry : string * string) : Prop :=
  occurs ":" (fst entry) = false ∧ occurs " " (snd entry) = false.

Section ListCommand.

Context {error : Type} `{!GoError error}.

(** The order in which the Go runtime visits the entries of a map in a
    [range] statement. The language leaves it unspecified; its only
    promise, that every entry is visited once, is a hypothesis of the
    theorem that needs it. *)
Variable map_range : gmap string string -> list (string * string).

(** The [for k, v := range obj.GetLabels()] loop of [buildBackupJobInfo]:
    each entry appends its formatted pair to [info.Labels]. *)
Definition range_labels (labels : gmap string string)
    (info : utils.BackupJobInfo) : utils.BackupJobInfo :=
  fold_left
    (fun info '(k, v) =>
       utils.set_Labels (utils.Labels info +:+ Sprintf_label k v) info)
    (map_range labels) info.

(** The guarded read [if status[f] != nil { set(status[f].(string)) }]. *)
Definition read_string_field (status : gmap string value) (f : string)
    (set : string -> utils.BackupJobInfo -> utils.BackupJobInfo)
    (info : utils.BackupJobInfo) : exec utils.BackupJobInfo :=
  if is_nil (index status f) then Ok info
  else s ← assert_string (index status f); Ok (set s info).

(** [buildBackupJobInfo(obj, info)]; the record behind the pointer [info]
    is passed in and the updated record returned. *)
Definition buildBackupJobInfo (obj : unstructured.Unstructured)
    (info : utils.BackupJobInfo) : exec utils.BackupJobInfo :=
  let info := range_labels (unstructured.GetLabels obj) info in
  if is_nil (index (unstructured.Object obj) "status") then Ok info
  else
    status ← assert_map (index (unstructured.Object obj) "status");
    let info := utils.set_Name (unstructured.GetName obj) info in
    let info := utils.set_Namespace (unstructured.GetNamespace obj) info in
    info ← read_string_field status "phase" utils.set_Phase info;
    info ← read_string_field status "completionTimestamp"
             utils.set_CompletionTime info;
    info ← read_string_field status "startTimestamp" utils.set_StartTime info;
    Ok info.

(** ** Collaborators *)

(** [types.BackupJobSourceName], the resource kind identifier of backup
    jobs (pkg/types is not part of the sources at hand). *)
Variable BackupJobSourceName : string.

(** [output.EncodeTable]'s rendering of a table (its rows, the header row
    first) into the bytes it writes. *)
Variable EncodeTable : list (list string) -> string.

(** [describe.ResourceDescriber]: an interface with the method
    [Describe(namespace, name, settings)]. *)
Record ResourceDescriber : Type :=
  { Describe : string -> string -> describe.DescriberSettings ->
               string * option error }.

(** One [Get] request sent to the cluster:
    [client.Resource(gvr).Namespace(ns).Get(ctx, name, opts)]. *)
Record GetRequest : Type :=
  { req_resource : schema.GroupVersionResource;
    req_namespace : string;
    req_name : string }.

(** [dynamic.Interface], reduced to the call chain the command uses. The
    answer may depend on the requests the cluster has served before. *)
Record DynamicClient : Type :=
  { Get : list GetRequest -> GetRequest ->
          error + unstructured.Unstructured }.

(** [dynamic.NewForConfig] *)
Variable NewForConfig : rest.Config -> error + DynamicClient.

(** The query a chain of [resource.Builder] calls describes. *)
Record BuilderQuery : Type :=
  { q_Unstructured : bool;
    q_ContinueOnError : bool;
    q_NamespaceParam : string;
    q_DefaultNamespace : bool;
    q_AllNamespaces : bool;
    q_FilenameParam : bool * resource.FilenameOptions;
    q_ResourceTypeOrNameArgs : bool * list string;
    q_RequestChunksOf : Z;
    q_Flatten : bool }.

(** [resource.Result]: what [r.Err()] and [r.Infos()] return. *)
Record Result : Type :=
  { Err : option error;
    Infos : list resource.Info * option error }.

(** A [*resource.Builder], seen through its [Do()]. *)
Record Builder : Type :=
  { Do : BuilderQuery -> Result }.

(** [cmdutil.Factory], reduced to the calls [Complete] makes. *)
Record Factory : Type :=
  { (** [f.ToRawKubeConfigLoader().Namespace()] *)
    KubeConfigNamespace : string * bool * option error;
    (** [f.ToRESTConfig()] *)
    ToRESTConfig : error + rest.Config;
    (** [f.NewBuilder] *)
    FactoryNewBuilder : Builder;
    (** [describe.DescriberFn(f, mapping)] *)
    DescriberFn : meta.RESTMapping -> error + ResourceDescriber }.

(** ** ListOptions *)

(** The struct of the command. Pointer, function and interface fields are
    [None] while they hold Go's nil. The embedded [IOStreams] are taken to
    be in place: they are the handles onto the process streams whose
    contents live in [World]. *)
Record ListOptions : Type :=
  { Namespace : string;
    Describer : option (meta.RESTMapping -> error + ResourceDescriber);
    NewBuilder : option Builder;
    BuilderArgs : list string;
    EnforceNamespace : bool;
    AllNamespaces : bool;
    DescriberSettings : option describe.DescriberSettings;
    FilenameOptions : option resource.FilenameOptions;
    client : option DynamicClient }.

(** The options [NewListCmd] starts from. *)
Definition NewListOptions : ListOptions :=
  {| Namespace := "";
     Describer := None;
     NewBuilder := None;
     BuilderArgs := [];
     EnforceNamespace := false;
     AllNamespaces := false;
     DescriberSettings :=
       Some {| describe.ShowEvents := true; describe.ChunkSize := 0 |};
     FilenameOptions :=
       Some {| resource.Filenames := []; resource.Kustomize := "";
               resource.Recursive_ := false |};
     client := None |}.

(** ** Complete *)

(** [o.Complete(f, args)]: the returned error and the options afterwards. *)
Definition Complete (f : Factory) (args : list string) (o : ListOptions)
    : option error * ListOptions :=
  let '(ns, enforce, err) := KubeConfigNamespace f in
  let o :=
    {| Namespace := ns; Describer := Describer o; NewBuilder := NewBuilder o;
       BuilderArgs := BuilderArgs o; EnforceNamespace := enforce;
       AllNamespaces := AllNamespaces o;
       DescriberSettings := DescriberSettings o;
       FilenameOptions := FilenameOptions o; client := client o |} in
  match err with
  | Some _ => (err, o)
  | None =>
    let enforce := if AllNamespaces o then false else EnforceNamespace o in
    let o :=
      {| Namespace := Namespace o;
         Describer := Some (DescriberFn f);
         NewBuilder := NewBuilder o;
         BuilderArgs := [BackupJobSourceName] ++ args;
         EnforceNamespace := enforce;
         AllNamespaces := AllNamespaces o;
         DescriberSettings := DescriberSettings o;
         FilenameOptions := FilenameOptions o; client := client o |} in
    match ToRESTConfig f with
    | inl _ => (None, o)
    | inr config =>
      match NewForConfig config with
      | inl err => (Some err, o)
      | inr client' =>
        (None,
         {| Namespace := Namespace o; Describer := Describer o;
            NewBuilder := Some (FactoryNewBuilder f);
            BuilderArgs := BuilderArgs o;
            EnforceNamespace := EnforceNamespace o;
            AllNamespaces := AllNamespaces o;
            DescriberSettings := DescriberSettings o;
            FilenameOptions := FilenameOptions o;
            client := Some client' |})
      end
    end
  end.

(** ** Run *)

(** What the command does to the outside: the chunks written to [o.Out]
    and [o.ErrOut], one per write, and the [Get] requests sent to the
    cluster, oldest first. Writes to the streams are taken to succeed (the
    code discards their errors). *)
Record World : Type :=
  { Out : list string;
    ErrOut : list string;
    Requests : list GetRequest }.

Definition write_Out (s : string) (w : World) : World :=
  {| Out := Out w ++ [s]; ErrOut := ErrOut w; Requests := Requests w |}.

Definition write_ErrOut (s : string) (w : World) : World :=
  {| Out := Out w; ErrOut := ErrOut w ++ [s]; Requests := Requests w |}.

Definition sent (r : GetRequest) (w : World) : World :=
  {| Out := Out w; ErrOut := ErrOut w; Requests := Requests w ++ [r] |}.

Definition newline : string := String "010"%char "".

(** [fmt.Fprintln(w, s)] writes [s] and a newline. *)
Definition Sprintln (s : string) : string := s +:+ newline.

(** [fmt.Sprintf("No resources found in %s namespace.\n", ns)] *)
Definition Sprintf_not_found (ns : string) : string :=
  "No resources found in " +:+ ns +:+ " namespace." +:+ newline.

(** The row [table.AddRow("NAMESPACE", ...)] starts the table with. *)
Definition header : list string :=
  ["NAMESPACE"; "NAME"; "PHASE"; "COMPLETION_TIME"; "CREATE_TIME"].

(** The row [Run] adds for a projected record. *)
Definition row (i : utils.BackupJobInfo) : list string :=
  [utils.Namespace i; utils.Name i; utils.Phase i; utils.CompletionTime i;
   utils.StartTime i].

(** The variables of [Run] the loop over [infos] updates. *)
Record LoopState : Type :=
  { table : list (list string);
    allErrs : list error;
    errs : gset string }.

(** How one pass through the loop body ends: it falls through or
    [continue]s to the next item, [return]s an error, or panics. *)
Inductive step : Type :=
| Continue (st : LoopState)
| ReturnErr (e : error)
| Panicked.

(** The request [Run] sends for a matched object. *)
Definition get_request (o : ListOptions) (info : resource.Info) : GetRequest :=
  {| req_resource := meta.Resource (resource.ResourceMapping info);
     req_namespace := Namespace o;
     req_name := resource.Name info |}.

(** The body of [for _, info := range infos]. [err] is the variable of the
    enclosing function the body tests, the one [r.Infos()] assigned: the
    [obj, err := ...Get(...)] further down declares a new [err], local to
    the body, which is the one the second test reads. *)
Definition loop_body (o : ListOptions) (err : option error)
    (info : resource.Info) (st : LoopState) (w : World) : step * World :=
  let backupJobInfo := utils.zero in
  let mapping := resource.ResourceMapping info in
  match err with
  | Some e =>
    if decide (Error e ∈ errs st) then (Continue st, w)
    else
      (Continue {| table := table st;
                   allErrs := allErrs st ++ [e];
                   errs := {[Error e]} ∪ errs st |}, w)
  | None =>
    let backupJobInfo :=
      utils.set_Namespace (resource.Namespace info) backupJobInfo in
    let backupJobInfo := utils.set_Name (resource.Name info) backupJobInfo in
    match client o with
    | None => (Panicked, w)
    | Some c =>
      let request :=
        {| req_resource := meta.Resource mapping;
           req_namespace := Namespace o;
           req_name := resource.Name info |} in
      let answer := Get c (Requests w) request in
      let w := sent request w in
      match answer with
      | inl err => (ReturnErr err, w)
      | inr obj =>
        match buildBackupJobInfo obj backupJobInfo with
        | Panic => (Panicked, w)
        | Ok backupJobInfo =>
          (Continue {| table := table st ++ [row backupJobInfo];
                       allErrs := allErrs st;
                       errs := errs st |}, w)
        end
      end
    end
  end.

(** The loop over [infos], in order. *)
Fixpoint loop (o : ListOptions) (err : option error)
    (infos : list resource.Info) (st : LoopState) (w : World) : step * World :=
  match infos with
  | [] => (Continue st, w)
  | info :: infos =>
    match loop_body o err info st w with
    | (Continue st, w) => loop o err infos st w
    | stop => stop
    end
  end.

(** The query the builder chain of [Run] describes. [FilenameParam] reads
    through the pointer [o.FilenameOptions] it is handed, and the argument
    of [RequestChunksOf] is [o.DescriberSettings.ChunkSize]: the chain
    panics when either pointer is nil. *)
Definition query (o : ListOptions) : exec BuilderQuery :=
  filenameOptions ← deref (FilenameOptions o);
  settings ← deref (DescriberSettings o);
  Ok {| q_Unstructured := true;
        q_ContinueOnError := true;
        q_NamespaceParam := Namespace o;
        q_DefaultNamespace := true;
        q_AllNamespaces := AllNamespaces o;
        q_FilenameParam := (EnforceNamespace o, filenameOptions);
        q_ResourceTypeOrNameArgs := (true, BuilderArgs o);
        q_RequestChunksOf := describe.ChunkSize settings;
        q_Flatten := true |}.

(** [o.Run()]: the returned error, or a panic, and the world afterwards. *)
Definition Run (o : ListOptions) (w : World) : exec (option error) * World :=
  match NewBuilder o with
  | None => (Panic, w)
  | Some builder =>
    match query o with
    | Panic => (Panic, w)
    | Ok q =>
      let r := Do builder q in
      let err := Err r in
      match err with
      | Some _ => (Ok err, w)
      | None =>
        let allErrs0 : list error := [] in
        let '(infos, err) := Infos r in
        match err with
        | Some _ => (Ok err, w)
        | None =>
          let table0 := [header] in
          let errs0 : gset string := ∅ in
          match loop o err infos
                  {| table := table0; allErrs := allErrs0; errs := errs0 |} w
          with
          | (ReturnErr e, w) => (Ok (Some e), w)
          | (Panicked, w) => (Panic, w)
          | (Continue st, w) =>
            let w := write_Out (EncodeTable (table st)) w in
            let w :=
              if decide (List.length infos = 0 ∧ List.length (allErrs st) = 0)
              then
                if AllNamespaces o
                then write_ErrOut (Sprintln "No resources found") w
                else write_ErrOut (Sprintf_not_found (Namespace o)) w
              else w in
            (Ok (utilerrors.NewAggregate (allErrs st)), w)
          end
        end
      end
    end
  end.

(** *** Vocabulary for the per-object re-fetch *)

(** The record the loop body hands to [buildBackupJobInfo]: the zero
    record with the namespace and name of the listed entry. *)
Definition initial_record (info : resource.Info) : utils.BackupJobInfo :=
  utils.set_Name (resource.Name info)
    (utils.set_Namespace (resource.Namespace info) utils.zero).

(** The projection of a re-fetched object, as the loop body computes it. *)
Definition project (info : resource.Info) (obj : unstructured.Unstructured)
    : exec utils.BackupJobInfo :=
  buildBackupJobInfo obj (initial_record info).

(** The answers of the cluster when the objects of [infos] are re-fetched
    one after the other, [served] being the requests it has seen before. *)
Fixpoint refetch (c : DynamicClient) (o : ListOptions)
    (served : list GetRequest) (infos : list resource.Info)
    : list (error + unstructured.Unstructured) :=
  match infos with
  | [] => []
  | info :: infos =>
    Get c served (get_request o info)
    :: refetch c o (served ++ [get_request o info]) infos
  end.

(** The variables of the loop as [Run] initialises them. *)
Definition initial_state : LoopState :=
  {| table := [header]; allErrs := []; errs := ∅ |}.

(** ** NewListCmd *)

(** How one invocation of the command ends: its [Run] function returns,
    [cmdutil.CheckErr] is handed a non-nil error (it reports the error and
    ends the process with a non-zero exit code; what it prints goes to the
    process's own standard error and is left to that library), or the
    invocation panics. *)
Inductive ending : Type :=
| Finished
| Fatal (e : error)
| Crashed.

(** A [*cobra.Command], reduced to the fields [NewListCmd] sets. [CmdRun]
    is the [Run] field: the function of the positional arguments the
    framework calls. *)
Record Command : Type :=
  { Use : string;
    Short : string;
    CmdRun : list string -> World -> ending * World }.

(** [NewListCmd(f, streams)]. The options are created here and reachable
    from nowhere else: the command binds no flag to them. The streams are
    the ones whose contents [World] holds. *)
Definition NewListCmd (f : Factory) : Command :=
  let o := NewListOptions in
  {| Use := "list";
     Short := "List all database backup job.";
     CmdRun := fun args w =>
       let '(err, o) := Complete f args o in
       match err with
       | Some e => (Fatal e, w)
       | None =>
         match Run o w with
         | (Panic, w) => (Crashed, w)
         | (Ok (Some e), w) => (Fatal e, w)
         | (Ok None, w) => (Finished, w)
         end
       end |}.

(** *** Vocabulary for the command *)

(** The query the command puts to the builder when the kubeconfig resolves
    to namespace [ns] with enforcement [enforce]. *)
Definition list_query (ns : string) (enforce : bool) (args : list string)
    : BuilderQuery :=
  {| q_Unstructured := true;
     q_ContinueOnError := true;
     q_NamespaceParam := ns;
     q_DefaultNamespace := true;
     q_AllNamespaces := false;
     q_FilenameParam :=
       (enforce,
        {| resource.Filenames := []; resource.Kustomize := "";
           resource.Recursive_ := false |});
     q_ResourceTypeOrNameArgs := (true, BackupJobSourceName :: args);
     q_RequestChunksOf := 0;
     q_Flatten := true |}.

(** The request for a listed object in namespace [ns]. *)
Definition request_in (ns : string) (info : resource.Info) : GetRequest :=
  {| req_resource := meta.Resource (resource.Mapping info);
     req_namespace := ns;
     req_name := resource.Name info |}.

(** The answers of the cluster to the requests for [infos] in namespace
    [ns], one after the other. *)
Fixpoint answers (c : DynamicClient) (ns : string)
    (served : list GetRequest) (infos : list resource.Info)
    : list (error + unstructured.Unstructured) :=
  match infos with
  | [] => []
  | info :: infos =>
    Get c served (request_in ns info)
    :: answers c ns (served ++ [request_in ns info]) infos
  end.

(** An object on which [buildBackupJobInfo] panics: its status is neither
    nil nor a map, or it is a map in which [phase], [completionTimestamp]
    or [startTimestamp] is neither nil nor a string. *)
Definition malformed (obj : unstructured.Unstructured) : Prop :=
  (is_nil (index (unstructured.Object obj) "status") = false
   /\ forall m, index (unstructured.Object obj) "status" <> VMap m)
  \/ (exists status f,
        index (unstructured.Object obj) "status" = VMap status
        /\ f ∈ ["phase"; "completionTimestamp"; "startTimestamp"]
        /\ is_nil (index status f) = false
        /\ forall s, index status f <> VString s).

End ListCommand.

Arguments buildBackupJobInfo : simpl never.
Arguments loop_body : simpl never.

(** ** Concrete collaborators

    A small cluster used to run the definitions: errors are their
    messages, the runtime visits map entries in [map_to_list] order, a
    table is rendered row by row with tab-separated cells. *)

Module Example.

#[export] Instance message_error : GoError string :=
  {| Error := fun msg => msg;
     aggregate := fun errs => "[" +:+ String.concat ", " errs +:+ "]" |}.

Definition map_range (m : gmap string string) : list (string * string) :=
  map_to_list m.

Definition EncodeTable (rows : list (list string)) : string :=
  String.concat newline (map (String.concat (String "009"%char "")) rows)
  +:+ newline.

Definition BackupJobSourceName : string := "backupjobs.dataprotection.kubeblocks.io".

Definition backupjobs : schema.GroupVersionResource :=
  {| schema.Group := "dataprotection.kubeblocks.io";
     schema.Version := "v1alpha1";
     schema.Resource := "backupjobs" |}.

Definition mapping : meta.RESTMapping :=
  {| meta.Resource := backupjobs;
     meta.GroupVersionKind :=
       {| schema.KindGroup := "dataprotection.kubeblocks.io";
          schema.KindVersion := "v1alpha1";
          schema.Kind := "BackupJob" |} |}.

Definition metadata (name namespace : string) (labels : gmap string value)
    : value :=
  VMap (<["name" := VString name]>
        (<["namespace" := VString namespace]>
         (<["labels" := VMap labels]> ∅))).

(** A finished backup job with two labels. *)
Definition nightly : unstructured.Unstructured :=
  {| unstructured.Object :=
       <["metadata" :=
           metadata "nightly" "default"
             (<["app" := VString "mysql"]> (<["tier" := VString "db"]> ∅))]>
       (<["status" :=
           VMap (<["phase" := VString "Completed"]>
                 (<["completionTimestamp" := VString "2022-09-01T02:10:00Z"]>
                  (<["startTimestamp" := VString "2022-09-01T02:00:00Z"]> ∅)))]>
        ∅) |}.

(** A backup job the controller has not reported on yet: no status. *)
Definition pending : unstructured.Unstructured :=
  {| unstructured.Object :=
       <["metadata" :=
           metadata "pending" "default" (<["app" := VString "mysql"]> ∅)]> ∅ |}.

(** A backup job whose status holds only a phase. *)
Definition running : unstructured.Unstructured :=
  {| unstructured.Object :=
       <["metadata" := metadata "running" "default" ∅]>
       (<["status" := VMap (<["phase" := VString "InProgress"]> ∅)]> ∅) |}.

(** An object whose status is a string, not a map. *)
Definition garbled : unstructured.Unstructured :=
  {| unstructured.Object :=
       <["metadata" := metadata "garbled" "default" ∅]>
       (<["status" := VString "Completed"]> ∅) |}.

(** An object whose status.phase is a number. *)
Definition numbered : unstructured.Unstructured :=
  {| unstructured.Object :=
       <["metadata" := metadata "numbered" "default" ∅]>
       (<["status" := VMap (<["phase" := VInt 3]> ∅)]> ∅) |}.

(** The cluster: it serves the objects above from namespace "default" and
    answers every other request with a not-found error. *)
Definition cluster : DynamicClient (error:=string) :=
  {| Get := fun _ request =>
       if decide (req_namespace request = "default") then
         if decide (req_name request = "nightly") then inr nightly
         else if decide (req_name request = "pending") then inr pending
         else if decide (req_name request = "running") then inr running
         else if decide (req_name request = "garbled") then inr garbled
         else if decide (req_name request = "numbered") then inr numbered
         else inl ("backupjobs " +:+ req_name request +:+ " not found")
       else inl ("backupjobs " +:+ req_name request +:+ " not found") |}.

Definition listed (namespace name : string) : resource.Info :=
  {| resource.Namespace := namespace; resource.Name := name;
     resource.Mapping := mapping |}.

(** A builder whose query matches the given objects. *)
Definition builder (infos : list resource.Info) : Builder (error:=string) :=
  {| Do := fun _ => {| Err := None; Infos := (infos, None) |} |}.

Definition NewForConfig (config : rest.Config) : string + DynamicClient :=
  inr cluster.

(** A factory whose kubeconfig resolves to namespace "default". *)
Definition factory (infos : list resource.Info) : Factory (error:=string) :=
  {| KubeConfigNamespace := ("default", true, None);
     ToRESTConfig :=
       inr {| rest.Host := "https://127.0.0.1:6443"; rest.APIPath := "/apis" |};
     FactoryNewBuilder := builder infos;
     DescriberFn := fun _ => inl "no describer" |}.

(** The same factory with a kubeconfig that names no reachable server. *)
Definition factory_without_config (infos : list resource.Info)
    : Factory (error:=string) :=
  {| KubeConfigNamespace := ("default", true, None);
     ToRESTConfig := inl "invalid configuration: no configuration has been provided";
     FactoryNewBuilder := builder infos;
     DescriberFn := fun _ => inl "no describer" |}.

(** Options as [Complete] leaves them against [factory infos]. *)
Definition completed (all : bool) (infos : list resource.Info)
    : ListOptions (error:=string) :=
  {| Namespace := "default";
     Describer := None;
     NewBuilder := Some (builder infos);
     BuilderArgs := [BackupJobSourceName];
     EnforceNamespace := negb all;
     AllNamespaces := all;
     DescriberSettings :=
       Some {| describe.ShowEvents := true; describe.ChunkSize := 0 |};
     FilenameOptions :=
       Some {| resource.Filenames := []; resource.Kustomize := "";
               resource.Recursive_ := false |};
     client := Some cluster |}.

(** The options before [Complete], with and without the all-namespaces
    flag the parent command binds. *)
Definition fresh (all : bool) : ListOptions (error:=string) :=
  {| Namespace := "";
     Describer := None;
     NewBuilder := None;
     BuilderArgs := [];
     EnforceNamespace := false;
     AllNamespaces := all;
     DescriberSettings :=
       Some {| describe.ShowEvents := true; describe.ChunkSize := 0 |};
     FilenameOptions :=
       Some {| resource.Filenames := []; resource.Kustomize := "";
               resource.Recursive_ := false |};
     client := None |}.

Definition quiet : World := {| Out := []; ErrOut := []; Requests := [] |}.

(** The query [Run] puts for [completed all infos]. *)
Definition asked (all : bool) : BuilderQuery :=
  {| q_Unstructured := true;
     q_ContinueOnError := true;
     q_NamespaceParam := "default";
     q_DefaultNamespace := true;
     q_AllNamespaces := all;
     q_FilenameParam :=
       (negb all,
        {| resource.Filenames := []; resource.Kustomize := "";
           resource.Recursive_ := false |});
     q_ResourceTypeOrNameArgs := (true, [BackupJobSourceName]);
     q_RequestChunksOf := 0;
     q_Flatten := true |}.

(** What the projection makes of [nightly] and [pending]. *)
Definition nightly_record : utils.BackupJobInfo :=
  {| utils.Namespace := "default"; utils.Name := "nightly";
     utils.Phase := "Completed";
     utils.CompletionTime := "2022-09-01T02:10:00Z";
     utils.StartTime := "2022-09-01T02:00:00Z";
     utils.Labels := "app:mysql tier:db " |}.

Definition pending_record : utils.BackupJobInfo :=
  {| utils.Namespace := "default"; utils.Name := "pending";
     utils.Phase := ""; utils.CompletionTime := ""; utils.StartTime := "";
     utils.Labels := "app:mysql " |}.

(** Two objects without status whose label mappings differ: one label
    whose value holds a space and a colon, and the two labels that value
    spells out. *)
Definition one_label : unstructured.Unstructured :=
  {| unstructured.Object :=
       <["metadata" :=
           metadata "one" "default" (<["c" := VString "d a:b"]> ∅)]> ∅ |}.

Definition two_labels : unstructured.Unstructured :=
  {| unstructured.Object :=
       <["metadata" :=
           metadata "two" "default"
             (<["c" := VString "d"]> (<["a" := VString "b"]> ∅))]> ∅ |}.

(** A factory whose kubeconfig cannot be loaded. *)
Definition factory_without_namespace : Factory (error:=string) :=
  {| KubeConfigNamespace := ("", false, Some "invalid kubeconfig");
     ToRESTConfig := inl "invalid kubeconfig";
     FactoryNewBuilder := builder [];
     DescriberFn := fun _ => inl "no describer" |}.

(** A client constructor that rejects every configuration. *)
Definition NewForConfig_failing (config : rest.Config)
    : string + DynamicClient (error:=string) :=
  inl "host must be a URL or a host:port pair".

(** A builder whose query fails. *)
Definition broken_builder : Builder (error:=string) :=
  {| Do := fun _ =>
       {| Err := Some "the server doesn't have a resource type backupjobs";
          Infos := ([], Some "the server doesn't have a resource type backupjobs") |} |}.

(** Options completed against a cluster that does not serve backup jobs. *)
Definition completed_unserved : ListOptions (error:=string) :=
  {| Namespace := "default";
     Describer := None;
     NewBuilder := Some broken_builder;
     BuilderArgs := [BackupJobSourceName];
     EnforceNamespace := true;
     AllNamespaces := false;
     DescriberSettings :=
       Some {| describe.ShowEvents := true; describe.ChunkSize := 0 |};
     FilenameOptions :=
       Some {| resource.Filenames := []; resource.Kustomize := "";
               resource.Recursive_ := false |};
     client := Some cluster |}.


End Example.

(** * Properties *)

(** ** Strings *)

Lemma string_app_nil_l (s : string) : "" +:+ s = s.
Proof. reflexivity. Qed.

Lemma string_app_cons (c : ascii) (s1 s2 : string) :
  String c s1 +:+ s2 = String c (s1 +:+ s2).
Proof. reflexivity. Qed.

Lemma string_app_nil_r (s : string) : s +:+ "" = s.
Proof.
  induction s as [|c s IH]; [done |].
  by rewrite string_app_cons, IH.
Qed.

Lemma string_app_assoc (s1 s2 s3 : string) :
  (s1 +:+ s2) +:+ s3 = s1 +:+ (s2 +:+ s3).
Proof.
  induction s1 as [|c s1 IH]; [done |].
  by rewrite !string_app_cons, IH.
Qed.

(** A stretch of text without a colon is taken into the key being read. *)
Lemma scan_key_text (k rest acc : string) :
  occurs ":" k = false ->
  scan (k +:+ rest) None acc = scan rest None (acc +:+ k).
Proof.
  revert acc. induction k as [|c k IH]; intros acc Hk.
  - by rewrite string_app_nil_l, string_app_nil_r.
  - rewrite string_app_cons. simpl in *.
    destruct (decide (c = ":"%char)) as [|Hc]; [done |].
    rewrite IH by done. by rewrite string_app_assoc.
Qed.

(** A stretch of text without a space is taken into the value being read. *)
Lemma scan_value_text (k v rest acc : string) :
  occurs " " v = false ->
  scan (v +:+ rest) (Some k) acc = scan rest (Some k) (acc +:+ v).
Proof.
  revert acc. induction v as [|c v IH]; intros acc Hv.
  - by rewrite string_app_nil_l, string_app_nil_r.
  - rewrite string_app_cons. simpl in *.
    destruct (decide (c = " "%char)) as [|Hc]; [done |].
    rewrite IH by done. by rewrite string_app_assoc.
Qed.

(** One formatted pair in front of a string is read back as that pair. *)
Lemma scan_Sprintf_label (k v rest : string) :
  plain_label (k, v) ->
  scan (Sprintf_label k v +:+ rest) None "" = (k, v) :: scan rest None "".
Proof.
  intros [Hk Hv]. simpl in Hk, Hv. unfold Sprintf_label.
  rewrite !string_app_assoc.
  rewrite scan_key_text, string_app_nil_l by done.
  rewrite string_app_cons, string_app_nil_l. simpl.
  rewrite scan_value_text, string_app_nil_l by done.
  rewrite string_app_cons, string_app_nil_l. simpl.
  done.
Qed.

(** Reading back what [format_labels] wrote returns the pairs, in order. *)
Lemma parse_format_labels (entries : list (string * string)) :
  Forall plain_label entries ->
  parse_labels (format_labels entries) = entries.
Proof.
  unfold parse_labels.
  induction 1 as [|[k v] entries Hkv _ IH]; simpl; [done |].
  rewrite scan_Sprintf_label by done. by rewrite IH.
Qed.

Section ListCommandFacts.

Context {error : Type} `{!GoError error}.

Variable map_range : gmap string string -> list (string * string).
Variable BackupJobSourceName : string.
Variable EncodeTable : list (list string) -> string.

#[local] Abbreviation ListOptions := (ListOptions (error:=error)).
#[local] Abbreviation Factory := (Factory (error:=error)).
#[local] Abbreviation DynamicClient := (DynamicClient (error:=error)).

Variable NewForConfig : rest.Config -> error + DynamicClient.

#[local] Abbreviation Builder := (Builder (error:=error)).
#[local] Abbreviation LoopState := (LoopState (error:=error)).
#[local] Abbreviation range_labels := (range_labels map_range).
#[local] Abbreviation buildBackupJobInfo := (buildBackupJobInfo map_range).
#[local] Abbreviation project := (project map_range).
#[local] Abbreviation loop_body := (loop_body map_range).
#[local] Abbreviation loop := (loop map_range).
#[local] Abbreviation Run := (Run map_range EncodeTable).
#[local] Abbreviation Complete := (Complete BackupJobSourceName NewForConfig).
#[local] Abbreviation NewListCmd :=
  (NewListCmd map_range BackupJobSourceName EncodeTable NewForConfig).
#[local] Abbreviation list_query := (list_query BackupJobSourceName).

(** ** buildBackupJobInfo *)

(** The label loop appends the formatted entries, in the order the
    runtime visits them, and touches no other field. *)
Lemma range_labels_spec (labels : gmap string string)
    (info : utils.BackupJobInfo) :
  range_labels labels info =
  utils.set_Labels
    (utils.Labels info +:+ format_labels (map_range labels)) info.
Proof.
  unfold range_labels.
  generalize (map_range labels) as entries.
  intros entries. revert info.
  induction entries as [|[k v] entries IH]; intros info; simpl.
  - rewrite string_app_nil_r. by destruct info.
  - rewrite IH. simpl. by rewrite string_app_assoc.
Qed.

(** Reading one status field leaves [Labels] alone. *)
Lemma read_string_field_Labels status f set info info' :
  (forall s i, utils.Labels (set s i) = utils.Labels i) ->
  read_string_field status f set info = Ok info' ->
  utils.Labels info' = utils.Labels info.
Proof.
  intros Hset. unfold read_string_field.
  destruct (is_nil (index status f)); [congruence |].
  destruct (index status f); simpl; try discriminate.
  intros [= <-]. apply Hset.
Qed.

(** Whenever [buildBackupJobInfo] returns, [Labels] is what the label loop
    left. *)
Lemma buildBackupJobInfo_Labels obj info info' :
  buildBackupJobInfo obj info = Ok info' ->
  utils.Labels info' =
  utils.Labels info
  +:+ format_labels (map_range (unstructured.GetLabels obj)).
Proof.
  unfold buildBackupJobInfo. rewrite range_labels_spec.
  destruct (is_nil _).
  { by intros [= <-]. }
  destruct (index _ "status") as [| | | | | |status]; simpl; try discriminate.
  destruct (read_string_field status "phase" _ _) as [i1|] eqn:H1;
    simpl; [|discriminate].
  destruct (read_string_field status "completionTimestamp" _ _) as [i2|] eqn:H2;
    simpl; [|discriminate].
  destruct (read_string_field status "startTimestamp" _ _) as [i3|] eqn:H3;
    simpl; [|discriminate].
  intros [= <-].
  apply read_string_field_Labels in H1, H2, H3; try done.
  rewrite H3, H2, H1. done.
Qed.

(** C2 (as amended). For an object whose top-level status is absent (nil),
    [buildBackupJobInfo] returns normally, appends the formatted labels to
    [Labels] and leaves [Name], [Namespace], [Phase], [CompletionTime] and
    [StartTime] as its caller passed them: it does not read the object's
    name or namespace. With the record the loop of [Run] passes, the result
    therefore carries the name and namespace of the listed entry and empty
    [Phase], [CompletionTime] and [StartTime]. *)
Theorem buildBackupJobInfo_without_status obj info :
  is_nil (index (unstructured.Object obj) "status") = true ->
  (exists info',
     buildBackupJobInfo obj info = Ok info'
     /\ utils.Labels info' =
        utils.Labels info
        +:+ format_labels (map_range (unstructured.GetLabels obj))
     /\ utils.Name info' = utils.Name info
     /\ utils.Namespace info' = utils.Namespace info
     /\ utils.Phase info' = utils.Phase info
     /\ utils.CompletionTime info' = utils.CompletionTime info
     /\ utils.StartTime info' = utils.StartTime info)
  /\ (forall listed, exists record,
        project listed obj = Ok record
        /\ utils.Name record = resource.Name listed
        /\ utils.Namespace record = resource.Namespace listed
        /\ utils.Phase record = ""
        /\ utils.CompletionTime record = ""
        /\ utils.StartTime record = "").
Proof.
  intros Hnil.
  assert (Hret : forall i,
    buildBackupJobInfo obj i =
    Ok (utils.set_Labels
          (utils.Labels i
           +:+ format_labels (map_range (unstructured.GetLabels obj))) i)).
  { intros i. unfold buildBackupJobInfo.
    rewrite Hnil. by rewrite range_labels_spec. }
  split.
  - eexists. split; [apply Hret |]. simpl. done.
  - intros listed. eexists. split; [apply Hret |]. simpl. done.
Qed.

(** C7 (as amended). Whenever [buildBackupJobInfo] returns, the [Labels]
    string is the one it was given followed by the pairs of the object's
    label mapping, each exactly once, each written [key:value] and followed
    by one space, in the order the runtime happened to visit them. When no
    key holds a colon and no value a space (as for every label Kubernetes
    accepts) and [Labels] was empty before, reading the string back yields
    the entries of the mapping, as a multiset. *)
Theorem buildBackupJobInfo_label_pairs obj info info' :
  (forall m, map_range m ≡ₚ map_to_list m) ->
  buildBackupJobInfo obj info = Ok info' ->
  exists entries,
    entries ≡ₚ map_to_list (unstructured.GetLabels obj)
    /\ utils.Labels info' = utils.Labels info +:+ format_labels entries
    /\ (map_Forall (fun k v => plain_label (k, v)) (unstructured.GetLabels obj) ->
        utils.Labels info = "" ->
        parse_labels (utils.Labels info')
        ≡ₚ map_to_list (unstructured.GetLabels obj)).
Proof.
  intros Hrange Hret.
  apply buildBackupJobInfo_Labels in Hret.
  exists (map_range (unstructured.GetLabels obj)).
  split; [apply Hrange |]. split; [done |].
  intros Hplain Hempty.
  rewrite Hret, Hempty, string_app_nil_l.
  rewrite parse_format_labels; [apply Hrange |].
  rewrite (Hrange _).
  apply map_Forall_to_list in Hplain.
  eapply Forall_impl; [apply Hplain |].
  by intros [k v].
Qed.

(** A status field that holds something other than a string makes its
    guarded read panic. *)
Lemma read_string_field_panics status f set info :
  is_nil (index status f) = false ->
  (forall s, index status f <> VString s) ->
  read_string_field status f set info = Panic.
Proof.
  intros Hnil Hstr. unfold read_string_field. rewrite Hnil.
  destruct (index status f); try done. by destruct (Hstr s).
Qed.

(** C8. An object whose status is present (not nil) but is not a
    string-keyed map, or whose status is a map in which [phase],
    [completionTimestamp] or [startTimestamp] is present (not nil) but is
    not a string, makes [buildBackupJobInfo] panic on the failed type
    assertion: no record and no error is returned. *)
Theorem buildBackupJobInfo_panics obj info :
  (is_nil (index (unstructured.Object obj) "status") = false
   /\ forall m, index (unstructured.Object obj) "status" <> VMap m)
  \/ (exists status f,
        index (unstructured.Object obj) "status" = VMap status
        /\ f ∈ ["phase"; "completionTimestamp"; "startTimestamp"]
        /\ is_nil (index status f) = false
        /\ forall s, index status f <> VString s) ->
  buildBackupJobInfo obj info = Panic.
Proof.
  unfold buildBackupJobInfo.
  intros [[Hnil Hmap] | (status & f & Hstatus & Hf & Hnil & Hstr)].
  - rewrite Hnil.
    destruct (index _ "status"); try done. by destruct (Hmap m).
  - rewrite Hstatus. simpl.
    repeat (apply elem_of_cons in Hf as [-> | Hf]).
    + by rewrite read_string_field_panics.
    + destruct (read_string_field status "phase" _ _); simpl; [|done].
      by rewrite read_string_field_panics.
    + destruct (read_string_field status "phase" _ _); simpl; [|done].
      destruct (read_string_field status "completionTimestamp" _ _);
        simpl; [|done].
      by rewrite read_string_field_panics.
    + by apply elem_of_nil in Hf.
Qed.

(** A status field that is absent is skipped; one that holds a string is
    stored. *)
Lemma read_string_field_returns status f set info :
  is_nil (index status f) = true \/ (exists s, index status f = VString s) ->
  read_string_field status f set info =
  Ok match index status f with
     | VString s => set s info
     | _ => info
     end.
Proof.
  unfold read_string_field. intros [Hnil | [s Hs]].
  - rewrite Hnil. by destruct (index status f).
  - by rewrite Hs.
Qed.

(** For an object whose status is a string-keyed map in which each of
    [phase], [completionTimestamp] and [startTimestamp] is absent (nil) or
    a string, [buildBackupJobInfo] returns normally: [Name] and [Namespace]
    are the object's, each of [Phase], [CompletionTime] and [StartTime] is
    the string of its status field when that is present and is left as it
    was otherwise. In particular a status holding only [phase] fills in
    [Phase] alone. *)
Theorem buildBackupJobInfo_with_status obj info status :
  index (unstructured.Object obj) "status" = VMap status ->
  (forall f, f ∈ ["phase"; "completionTimestamp"; "startTimestamp"] ->
     is_nil (index status f) = true \/ exists s, index status f = VString s) ->
  exists info',
    buildBackupJobInfo obj info = Ok info'
    /\ utils.Name info' = unstructured.GetName obj
    /\ utils.Namespace info' = unstructured.GetNamespace obj
    /\ utils.Phase info' =
       match index status "phase" with
       | VString s => s
       | _ => utils.Phase info
       end
    /\ utils.CompletionTime info' =
       match index status "completionTimestamp" with
       | VString s => s
       | _ => utils.CompletionTime info
       end
    /\ utils.StartTime info' =
       match index status "startTimestamp" with
       | VString s => s
       | _ => utils.StartTime info
       end.
Proof.
  intros Hstatus Hfields. unfold buildBackupJobInfo.
  rewrite Hstatus, range_labels_spec. simpl.
  do 3 (rewrite read_string_field_returns by (apply Hfields; set_solver);
        simpl).
  eexists. split; [reflexivity |].
  destruct (index status "phase"), (index status "completionTimestamp"),
    (index status "startTimestamp"); simpl; done.
Qed.

(** ** The loop of Run *)

(** With the tested [err] nil and a client at hand, the body re-fetches
    the object, then stops on a failed fetch or a panicking projection, or
    adds the projected row. *)
Lemma loop_body_fetch (o : ListOptions) c info st w :
  client o = Some c ->
  loop_body o None info st w =
  match Get c (Requests w) (get_request o info) with
  | inl e => (ReturnErr e, sent (get_request o info) w)
  | inr obj =>
    match project info obj with
    | Panic => (Panicked, sent (get_request o info) w)
    | Ok record =>
      (Continue {| table := table st ++ [row record];
                   allErrs := allErrs st;
                   errs := errs st |},
       sent (get_request o info) w)
    end
  end.
Proof. intros Hc. unfold loop_body. by rewrite Hc. Qed.

(** Were the tested [err] not nil, the body would skip the item without
    a request, recording the error unless its message is already in
    [errs]. *)
Lemma loop_body_stale_error (o : ListOptions) e info st w :
  loop_body o (Some e) info st w =
  (Continue (if decide (Error e ∈ errs st) then st
             else {| table := table st;
                     allErrs := allErrs st ++ [e];
                     errs := {[Error e]} ∪ errs st |}), w).
Proof. unfold loop_body. by destruct (decide _). Qed.

(** The loop over a concatenation runs the first part, then the second
    from where the first left off, unless the first part stops. *)
Lemma loop_app (o : ListOptions) err infos1 infos2 st w :
  loop o err (infos1 ++ infos2) st w =
  match loop o err infos1 st w with
  | (Continue st', w') => loop o err infos2 st' w'
  | stop => stop
  end.
Proof.
  revert st w. induction infos1 as [|info infos1 IH]; intros st w; simpl.
  - done.
  - destruct (loop_body o err info st w) as [[st'| |] w']; by rewrite ?IH.
Qed.

(** The loop never writes to the streams. *)
Lemma loop_streams (o : ListOptions) err infos st w :
  Out (snd (loop o err infos st w)) = Out w
  /\ ErrOut (snd (loop o err infos st w)) = ErrOut w.
Proof.
  revert st w. induction infos as [|info infos IH]; intros st w; simpl.
  - done.
  - assert (Hbody : Out (snd (loop_body o err info st w)) = Out w
                    /\ ErrOut (snd (loop_body o err info st w)) = ErrOut w).
    { unfold loop_body. destruct err as [e|].
      - by destruct (decide _).
      - destruct (client o) as [c|]; [|done].
        destruct (Get c _ _) as [e|obj]; [done |].
        by destruct (buildBackupJobInfo obj _). }
    destruct (loop_body o err info st w) as [[st'| |] w']; simpl in *;
      try done.
    destruct (IH st' w') as [-> ->]. done.
Qed.

(** With the tested [err] nil, a pass through the body that goes on to the
    next item leaves [allErrs] and [errs] as they were and adds a row. *)
Lemma loop_body_keeps_errors (o : ListOptions) info st w st' w' :
  loop_body o None info st w = (Continue st', w') ->
  allErrs st' = allErrs st /\ errs st' = errs st
  /\ exists record, table st' = table st ++ [row record].
Proof.
  unfold loop_body.
  destruct (client o) as [c|]; [|done].
  destruct (Get c _ _) as [e|obj]; [done |].
  destruct (buildBackupJobInfo obj _) as [record|]; [|done].
  intros [= <- <-]. simpl. eauto.
Qed.

(** So does the whole loop. *)
Lemma loop_keeps_errors (o : ListOptions) infos st w st' w' :
  loop o None infos st w = (Continue st', w') ->
  allErrs st' = allErrs st /\ errs st' = errs st.
Proof.
  revert st w. induction infos as [|info infos IH]; intros st w; simpl.
  - by intros [= <- <-].
  - destruct (loop_body o None info st w) as [[st1| |] w1] eqn:Hbody;
      try done.
    intros Hloop. apply IH in Hloop as [-> ->].
    apply loop_body_keeps_errors in Hbody as (-> & -> & _). done.
Qed.

(** One answer per object. *)
Lemma refetch_length c (o : ListOptions) served infos :
  List.length (refetch c o served infos) = List.length infos.
Proof.
  revert served. induction infos as [|info infos IH]; intros served; simpl;
    [done | by rewrite IH].
Qed.

(** When every object is re-fetched and projected, the loop adds their
    rows in order and has sent one request per object. *)
Lemma loop_rows (o : ListOptions) c infos objs records st w :
  client o = Some c ->
  refetch c o (Requests w) infos = inr <$> objs ->
  zip_with project infos objs = Ok <$> records ->
  loop o None infos st w =
  (Continue {| table := table st ++ (row <$> records);
               allErrs := allErrs st;
               errs := errs st |},
   {| Out := Out w; ErrOut := ErrOut w;
      Requests := Requests w ++ (get_request o <$> infos) |}).
Proof.
  intros Hc. revert objs records st w.
  induction infos as [|info infos IH]; intros objs records st w Hget Hproj.
  - destruct objs; [|done]. destruct records; [|done]. simpl.
    rewrite !app_nil_r. by destruct st, w.
  - destruct objs as [|obj objs]; [done |].
    simpl in Hget. injection Hget as Hobj Hget.
    destruct records as [|record records]; [done |].
    simpl in Hproj. injection Hproj as Hrecord Hproj.
    simpl. rewrite (loop_body_fetch _ _ _ _ _ Hc), Hobj, Hrecord.
    rewrite (IH objs records) by done. simpl.
    by rewrite <- !app_assoc.
Qed.

(** The requests the loop sends are those of the objects it got to, in
    order; it got to all of them if it ran to its end. *)
Lemma loop_requests (o : ListOptions) infos st w :
  exists j,
    Requests (snd (loop o None infos st w)) =
    Requests w ++ (get_request o <$> take j infos)
    /\ (forall st', fst (loop o None infos st w) = Continue st' ->
        j = List.length infos).
Proof.
  revert st w. induction infos as [|info infos IH]; intros st w; simpl.
  - exists 0. simpl. by rewrite app_nil_r.
  - destruct (client o) as [c|] eqn:Hc.
    + rewrite (loop_body_fetch _ _ _ _ _ Hc).
      destruct (Get c _ _) as [e|obj].
      { exists 1. simpl. done. }
      destruct (project info obj) as [record|].
      * destruct (IH {| table := table st ++ [row record];
                        allErrs := allErrs st; errs := errs st |}
                     (sent (get_request o info) w)) as (j & Hreq & Hall).
        exists (S j). rewrite Hreq. simpl. rewrite <- app_assoc.
        split; [done |]. intros st' Hst'. by rewrite (Hall st').
      * exists 1. simpl. done.
    + exists 0. unfold loop_body. rewrite Hc. simpl.
      by rewrite app_nil_r.
Qed.

(** ** Run *)

(** Once the query has succeeded, [Run] is the loop, started with a nil
    [err], followed by the rendering. *)
Lemma Run_reaches_loop (o : ListOptions) w builder q infos :
  NewBuilder o = Some builder ->
  query o = Ok q ->
  Err (Do builder q) = None ->
  Infos (Do builder q) = (infos, None) ->
  Run o w =
  match loop o None infos initial_state w with
  | (ReturnErr e, w) => (Ok (Some e), w)
  | (Panicked, w) => (Panic, w)
  | (Continue st, w) =>
    (Ok (utilerrors.NewAggregate (allErrs st)),
     let w := write_Out (EncodeTable (table st)) w in
     if decide (List.length infos = 0 /\ List.length (allErrs st) = 0)
     then
       if AllNamespaces o
       then write_ErrOut (Sprintln "No resources found") w
       else write_ErrOut (Sprintf_not_found (Namespace o)) w
     else w)
  end.
Proof.
  intros Hb Hq Herr Hinfos. unfold Run. rewrite Hb, Hq. simpl.
  rewrite Herr, Hinfos. reflexivity.
Qed.

(** A failed query ends [Run] at once. *)
Lemma Run_query_error (o : ListOptions) w builder q infos err e :
  NewBuilder o = Some builder ->
  query o = Ok q ->
  Infos (Do builder q) = (infos, err) ->
  Err (Do builder q) = Some e
  \/ (Err (Do builder q) = None /\ err = Some e) ->
  Run o w = (Ok (Some e), w).
Proof.
  intros Hb Hq Hinfos [Herr | [Herr ->]]; unfold Run; rewrite Hb, Hq; simpl;
    rewrite Herr; [done |].
  by rewrite Hinfos.
Qed.

(** C3. Once the query has succeeded, the [err] the loop body tests after
    [info.ResourceMapping()] is the nil error [r.Infos()] returned (a
    non-nil one has ended [Run] before the loop). With it the loop never
    takes the branch that records errors: however many items it handles,
    [allErrs] and [errs] stay as they were. So when the loop runs to its
    end, [allErrs] is empty and [Run] returns the nil aggregate. *)
Theorem Run_aggregation_unreachable (o : ListOptions) w builder q infos err :
  NewBuilder o = Some builder ->
  query o = Ok q ->
  Err (Do builder q) = None ->
  Infos (Do builder q) = (infos, err) ->
  match err with
  | Some e => Run o w = (Ok (Some e), w)
  | None =>
    (forall items st w0 st' w',
       loop o None items st w0 = (Continue st', w') ->
       allErrs st' = allErrs st /\ errs st' = errs st)
    /\ (forall st w',
          loop o None infos initial_state w = (Continue st, w') ->
          allErrs st = [] /\ errs st = ∅ /\ fst (Run o w) = Ok None)
  end.
Proof.
  intros Hb Hq Herr Hinfos. destruct err as [e|].
  - eapply Run_query_error; eauto.
  - split.
    + intros items st w0 st' w'. apply loop_keeps_errors.
    + intros st w' Hloop.
      destruct (loop_keeps_errors _ _ _ _ _ _ Hloop) as [Hall Herrs].
      simpl in Hall, Herrs. split; [done |]. split; [done |].
      rewrite (Run_reaches_loop _ _ _ _ _ Hb Hq Herr Hinfos), Hloop. simpl.
      by rewrite Hall.
Qed.

(** C4. Let [info] be the object whose re-fetch fails, after the objects
    [before] it were re-fetched and projected into rows. Then [Run]
    returns that error at once: nothing is written to the output stream
    (no header, none of the rows accumulated for the objects before it)
    nor to the error stream, and the objects [after] it are not
    re-fetched. *)
Theorem Run_refetch_failure (o : ListOptions) w builder q c
    before info after objs records e :
  NewBuilder o = Some builder ->
  query o = Ok q ->
  Err (Do builder q) = None ->
  Infos (Do builder q) = (before ++ info :: after, None) ->
  client o = Some c ->
  refetch c o (Requests w) before = inr <$> objs ->
  zip_with project before objs = Ok <$> records ->
  Get c (Requests w ++ (get_request o <$> before)) (get_request o info)
  = inl e ->
  fst (loop o None before initial_state w)
  = Continue {| table := header :: (row <$> records);
                allErrs := []; errs := ∅ |}
  /\ Run o w =
     (Ok (Some e),
      {| Out := Out w; ErrOut := ErrOut w;
         Requests :=
           Requests w ++ (get_request o <$> before ++ [info]) |}).
Proof.
  intros Hb Hq Herr Hinfos Hc Hget Hproj Hfail.
  pose proof (loop_rows o c before objs records initial_state w
                Hc Hget Hproj) as Hloop.
  split; [by rewrite Hloop |].
  rewrite (Run_reaches_loop _ _ _ _ _ Hb Hq Herr Hinfos).
  rewrite loop_app, Hloop. simpl.
  rewrite (loop_body_fetch _ _ _ _ _ Hc). simpl. rewrite Hfail.
  unfold sent. simpl. by rewrite fmap_app, app_assoc.
Qed.

(** C5 (as amended). When every matched object is re-fetched and none of
    the re-fetched objects makes the projection panic, [Run] returns no
    error and writes one table: the header row NAMESPACE, NAME, PHASE,
    COMPLETION_TIME, CREATE_TIME followed by one row per object, in the
    order the objects were returned, the i-th row holding the namespace,
    name, phase, completion time and start time of the i-th object's
    projection. One request per object has been sent, and with at least
    one object nothing goes to the error stream. *)
Theorem Run_renders_rows (o : ListOptions) w builder q c infos objs records :
  NewBuilder o = Some builder ->
  query o = Ok q ->
  Err (Do builder q) = None ->
  Infos (Do builder q) = (infos, None) ->
  client o = Some c ->
  refetch c o (Requests w) infos = inr <$> objs ->
  zip_with project infos objs = Ok <$> records ->
  exists w',
    Run o w = (Ok None, w')
    /\ Out w' = Out w ++ [EncodeTable (header :: (row <$> records))]
    /\ List.length records = List.length infos
    /\ Requests w' = Requests w ++ (get_request o <$> infos)
    /\ (infos <> [] -> ErrOut w' = ErrOut w).
Proof.
  intros Hb Hq Herr Hinfos Hc Hget Hproj.
  rewrite (Run_reaches_loop _ _ _ _ _ Hb Hq Herr Hinfos).
  rewrite (loop_rows o c infos objs records initial_state w Hc Hget Hproj).
  simpl. eexists. split; [reflexivity |].
  assert (Hlen : List.length records = List.length infos).
  { apply (f_equal List.length) in Hget.
    apply (f_equal List.length) in Hproj.
    rewrite length_fmap, refetch_length in Hget.
    rewrite length_fmap, length_zip_with in Hproj. lia. }
  destruct infos as [|info infos].
  - destruct (AllNamespaces o); simpl; done.
  - simpl. done.
Qed.

(** C6. When the query succeeds and matches no object, [Run] writes the
    table (its header row alone) and then exactly one line to the error
    stream: "No resources found" if the all-namespaces flag is set,
    otherwise "No resources found in <namespace> namespace." for the
    resolved namespace; it returns no error. When at least one object was
    matched, [Run] writes nothing to the error stream. *)
Theorem Run_no_resources (o : ListOptions) w builder q infos :
  NewBuilder o = Some builder ->
  query o = Ok q ->
  Err (Do builder q) = None ->
  Infos (Do builder q) = (infos, None) ->
  (infos = [] ->
   Run o w =
   (Ok None,
    {| Out := Out w ++ [EncodeTable [header]];
       ErrOut :=
         ErrOut w ++
         [if AllNamespaces o
          then "No resources found" +:+ newline
          else "No resources found in " +:+ Namespace o +:+ " namespace."
               +:+ newline];
       Requests := Requests w |}))
  /\ (infos <> [] -> ErrOut (snd (Run o w)) = ErrOut w).
Proof.
  intros Hb Hq Herr Hinfos.
  rewrite (Run_reaches_loop _ _ _ _ _ Hb Hq Herr Hinfos). split.
  - intros ->. simpl. by destruct (AllNamespaces o).
  - intros Hne.
    destruct (loop_streams o None infos initial_state w) as [_ HErrOut].
    destruct (loop o None infos initial_state w) as [[st| |] w'];
      simpl in *; try done.
    destruct (decide _) as [[Hlen _]|_]; [|done].
    by destruct infos.
Qed.

(** C10. [Run] re-fetches in the resolved [o.Namespace], under the
    object's name, and not in the namespace the listing reported for the
    object. First, it asks nowhere else: whatever happens, the requests it
    has sent are those for the first [j] matched objects, in order, each
    for the object's resource and name in [o.Namespace], and for all of
    the objects when it ends without error. Second, it does ask there:
    once the objects [before] a matched object have been re-fetched and
    projected, the request for that object, in [o.Namespace] under its
    name, has been sent, whether or not the cluster can answer it; and
    what [Run] does next hangs on the answer to that request, so that it
    returns the error if the object is not found there. An object listed
    in another namespace than the resolved one (as in all-namespaces
    mode) is thus looked up in a namespace that is not its own. *)
Theorem Run_refetch_namespace (o : ListOptions) w builder q infos err :
  NewBuilder o = Some builder ->
  query o = Ok q ->
  Infos (Do builder q) = (infos, err) ->
  (exists j,
     Requests (snd (Run o w))
     = Requests w ++ (request_in (Namespace o) <$> take j infos)
     /\ (fst (Run o w) = Ok None -> j = List.length infos))
  /\ (forall c before info after objs records,
        Err (Do builder q) = None ->
        err = None ->
        infos = before ++ info :: after ->
        client o = Some c ->
        refetch c o (Requests w) before = inr <$> objs ->
        zip_with project before objs = Ok <$> records ->
        exists j,
          Requests (snd (Run o w))
          = Requests w
            ++ (request_in (Namespace o) <$> before)
            ++ [{| req_resource := meta.Resource (resource.Mapping info);
                   req_namespace := Namespace o;
                   req_name := resource.Name info |}]
            ++ (request_in (Namespace o) <$> take j after)
          /\ (fst (Run o w) = Ok None -> j = List.length after)
          /\ (forall e,
                Get c (Requests w ++ (request_in (Namespace o) <$> before))
                  {| req_resource := meta.Resource (resource.Mapping info);
                     req_namespace := Namespace o;
                     req_name := resource.Name info |}
                = inl e ->
                fst (Run o w) = Ok (Some e) /\ j = 0)).
Proof.
  intros Hb Hq Hinfos. split.
  - assert (Hstop : forall e, Run o w = (Ok (Some e), w) ->
      exists j,
        Requests (snd (Run o w))
        = Requests w ++ (request_in (Namespace o) <$> take j infos)
        /\ (fst (Run o w) = Ok None -> j = List.length infos)).
    { intros e ->. exists 0. simpl. by rewrite app_nil_r. }
    destruct (Err (Do builder q)) as [e|] eqn:Herr.
    { apply (Hstop e). eapply Run_query_error; eauto. }
    destruct err as [e|].
    { apply (Hstop e). eapply Run_query_error; eauto. }
    clear Hstop.
    rewrite (Run_reaches_loop _ _ _ _ _ Hb Hq Herr Hinfos).
    destruct (loop_requests o infos initial_state w) as (j & Hreq & Hall).
    exists j.
    destruct (loop o None infos initial_state w) as [[st| |] w'];
      simpl in *; try done.
    split; [|intros _; by apply (Hall st)].
    destruct (decide _); [destruct (AllNamespaces o) |]; simpl; done.
  - intros c before info after objs records Herr -> -> Hc Hget Hproj.
    rewrite (Run_reaches_loop _ _ _ _ _ Hb Hq Herr Hinfos).
    rewrite loop_app.
    rewrite (loop_rows o c before objs records initial_state w Hc Hget Hproj).
    simpl. rewrite (loop_body_fetch _ _ _ _ _ Hc). simpl.
    change (get_request o info)
      with {| req_resource := meta.Resource (resource.Mapping info);
              req_namespace := Namespace o;
              req_name := resource.Name info |}.
    change (get_request o <$> before)
      with (request_in (Namespace o) <$> before).
    destruct (Get c _ _) as [e|obj] eqn:Hanswer.
    { exists 0. simpl. rewrite <- app_assoc. split; [done |].
      split; [done |]. intros e' [= <-]. done. }
    destruct (project info obj) as [record|].
    2:{ exists 0. simpl. rewrite <- app_assoc. done. }
    match goal with
    | |- context [loop o None after ?st ?w1] =>
      destruct (loop_requests o after st w1) as (j & Hreq & Hall);
      destruct (loop o None after st w1) as [[st'| |] w'] eqn:Hloop
    end; simpl in *; exists j.
    + split; [|split; [intros _; by apply (Hall st') | done]].
      change (get_request o <$> take j after)
        with (request_in (Namespace o) <$> take j after) in Hreq.
      destruct (decide _); [destruct (AllNamespaces o) |]; simpl;
        by rewrite Hreq, <- !app_assoc.
    + change (get_request o <$> take j after)
        with (request_in (Namespace o) <$> take j after) in Hreq.
      by rewrite Hreq, <- !app_assoc.
    + change (get_request o <$> take j after)
        with (request_in (Namespace o) <$> take j after) in Hreq.
      by rewrite Hreq, <- !app_assoc.
Qed.

(** ** Complete *)

(** A failure to resolve the namespace is returned. *)
Lemma Complete_namespace_error (f : Factory) args (o : ListOptions)
    ns enforce e :
  KubeConfigNamespace f = (ns, enforce, Some e) ->
  fst (Complete f args o) = Some e.
Proof. intros Hns. unfold Complete. by rewrite Hns. Qed.

(** A failure to construct the dynamic client is returned. *)
Lemma Complete_client_error (f : Factory) args (o : ListOptions)
    ns enforce config e :
  KubeConfigNamespace f = (ns, enforce, None) ->
  ToRESTConfig f = inr config ->
  NewForConfig config = inl e ->
  fst (Complete f args o) = Some e.
Proof.
  intros Hns Hconfig Hclient. unfold Complete.
  by rewrite Hns, Hconfig, Hclient.
Qed.

(** A failure of [ToRESTConfig] is not: [Complete] returns nil, and leaves
    the options without client and without builder constructor. *)
Lemma Complete_config_error (f : Factory) args (o : ListOptions)
    ns enforce e :
  KubeConfigNamespace f = (ns, enforce, None) ->
  ToRESTConfig f = inl e ->
  fst (Complete f args o) = None
  /\ client (snd (Complete f args o)) = client o
  /\ NewBuilder (snd (Complete f args o)) = NewBuilder o.
Proof.
  intros Hns Hconfig. unfold Complete. by rewrite Hns, Hconfig.
Qed.

(** C9. After every execution of [Complete] that returns no error: if the
    all-namespaces flag was requested, the enforce-namespace flag is false,
    whatever namespace resolution returned for it (and otherwise it is what
    namespace resolution returned); [BuilderArgs] is the backup-job
    resource kind identifier followed by the positional arguments, in
    order; the all-namespaces flag is unchanged. *)
Theorem Complete_builder_args (f : Factory) args (o o' : ListOptions) :
  Complete f args o = (None, o') ->
  (AllNamespaces o = true -> EnforceNamespace o' = false)
  /\ (AllNamespaces o = false ->
      EnforceNamespace o' = snd (fst (KubeConfigNamespace f)))
  /\ BuilderArgs o' = BackupJobSourceName :: args
  /\ AllNamespaces o' = AllNamespaces o.
Proof.
  unfold Complete.
  destruct (KubeConfigNamespace f) as [[ns enforce] [e|]]; [done |].
  simpl.
  destruct (ToRESTConfig f) as [e|config].
  - intros [= <-]. simpl. by destruct (AllNamespaces o).
  - destruct (NewForConfig config) as [e|c]; [done |].
    intros [= <-]. simpl. by destruct (AllNamespaces o).
Qed.

(** If the namespace cannot be resolved, or the REST configuration is
    there but no dynamic client can be made from it, [Complete] returns
    the error it was given. *)
Theorem Complete_returns_error (f : Factory) args (o : ListOptions)
    ns enforce config e :
  KubeConfigNamespace f = (ns, enforce, Some e)
  \/ (KubeConfigNamespace f = (ns, enforce, None)
      /\ ToRESTConfig f = inr config
      /\ NewForConfig config = inl e) ->
  fst (Complete f args o) = Some e.
Proof.
  intros [Hns | (Hns & Hconfig & Hclient)].
  - by eapply Complete_namespace_error.
  - by eapply Complete_client_error.
Qed.

(** If the query itself fails ([r.Err()] or [r.Infos()] returns an
    error) [Run] returns that error at once: no object is re-fetched and
    nothing is written. *)
Theorem Run_query_failure (o : ListOptions) w builder q infos err e :
  NewBuilder o = Some builder ->
  query o = Ok q ->
  Infos (Do builder q) = (infos, err) ->
  Err (Do builder q) = Some e
  \/ (Err (Do builder q) = None /\ err = Some e) ->
  Run o w = (Ok (Some e), w).
Proof. apply Run_query_error. Qed.

(** ** More on buildBackupJobInfo *)

(** A guarded read panics only on a field that is there and is no
    string. *)
Lemma read_string_field_panics_inv status f set info :
  read_string_field status f set info = Panic ->
  is_nil (index status f) = false /\ forall s, index status f <> VString s.
Proof.
  unfold read_string_field.
  destruct (is_nil (index status f)) eqn:Hnil; [done |].
  destruct (index status f); simpl; try done.
Qed.

(** A panic of [buildBackupJobInfo] comes from a malformed object. *)
Lemma panic_malformed obj info :
  buildBackupJobInfo obj info = Panic -> malformed obj.
Proof.
  unfold buildBackupJobInfo, malformed.
  destruct (index (unstructured.Object obj) "status")
    as [| | | | | |status]; simpl;
    try done;
    try (intros _; left; split; [done | intros m; discriminate]).
  intros Hpanic. right. exists status.
  destruct (read_string_field status "phase" _ _) as [i1|] eqn:H1.
  2:{ exists "phase".
      destruct (read_string_field_panics_inv _ _ _ _ H1) as [Hnil Hstr].
      split; [done |]. split; [set_solver | done]. }
  simpl in Hpanic.
  destruct (read_string_field status "completionTimestamp" _ _)
    as [i2|] eqn:H2.
  2:{ exists "completionTimestamp".
      destruct (read_string_field_panics_inv _ _ _ _ H2) as [Hnil Hstr].
      split; [done |]. split; [set_solver | done]. }
  simpl in Hpanic.
  destruct (read_string_field status "startTimestamp" _ _) as [i3|] eqn:H3;
    [done |].
  exists "startTimestamp".
  destruct (read_string_field_panics_inv _ _ _ _ H3) as [Hnil Hstr].
  split; [done |]. split; [set_solver | done].
Qed.

(** A malformed object makes [buildBackupJobInfo] panic, whatever record
    it is given. *)
Lemma malformed_panic obj info :
  malformed obj -> buildBackupJobInfo obj info = Panic.
Proof.
  unfold buildBackupJobInfo.
  intros [[Hnil Hmap] | (status & f & Hstatus & Hf & Hnil & Hstr)].
  - rewrite Hnil.
    destruct (index _ "status"); try done. by destruct (Hmap m).
  - rewrite Hstatus. simpl.
    assert (Hread : forall set i, read_string_field status f set i = Panic)
      by (intros; by apply read_string_field_panics).
    repeat (apply elem_of_cons in Hf as [-> | Hf]);
      [| | |by apply elem_of_nil in Hf].
    + by rewrite Hread.
    + destruct (read_string_field status "phase" _ _); simpl; [|done].
      by rewrite Hread.
    + destruct (read_string_field status "phase" _ _); simpl; [|done].
      destruct (read_string_field status "completionTimestamp" _ _);
        simpl; [|done].
      by rewrite Hread.
Qed.

(** [buildBackupJobInfo] panics exactly on the malformed objects: those
    whose status is neither nil nor a string-keyed map, or is a map in
    which [phase], [completionTimestamp] or [startTimestamp] is neither nil
    nor a string. On every other object it returns a record, and whether
    it panics does not depend on the record it is given. *)
Theorem buildBackupJobInfo_panics_iff obj info :
  (buildBackupJobInfo obj info = Panic <-> malformed obj)
  /\ (~ malformed obj -> exists info', buildBackupJobInfo obj info = Ok info')
  /\ (forall other,
        buildBackupJobInfo obj info = Panic ->
        buildBackupJobInfo obj other = Panic).
Proof.
  split; [|split].
  - split; [apply panic_malformed | apply malformed_panic].
  - intros Hwell.
    destruct (buildBackupJobInfo obj info) as [info'|] eqn:Hresult;
      [by exists info' |].
    by apply panic_malformed in Hresult.
  - intros other Hpanic. by apply malformed_panic, (panic_malformed obj info).
Qed.

(** ** More on Run *)

(** [refetch] asks in the resolved namespace. *)
Lemma refetch_answers c (o : ListOptions) served infos :
  refetch c o served infos = answers c (Namespace o) served infos.
Proof.
  revert served. induction infos as [|info infos IH]; intros served; simpl;
    [done | by rewrite IH].
Qed.



(** When the projection of a re-fetched object panics, after the objects
    [before] it were re-fetched and projected into rows, [Run] panics:
    nothing is written to either stream, the requests for the objects up
    to that one have been sent, and none for the objects [after] it. *)
Theorem Run_projection_panic (o : ListOptions) w builder q c
    before info after objs records obj :
  NewBuilder o = Some builder ->
  query o = Ok q ->
  Err (Do builder q) = None ->
  Infos (Do builder q) = (before ++ info :: after, None) ->
  client o = Some c ->
  refetch c o (Requests w) before = inr <$> objs ->
  zip_with project before objs = Ok <$> records ->
  Get c (Requests w ++ (get_request o <$> before)) (get_request o info)
  = inr obj ->
  project info obj = Panic ->
  Run o w =
  (Panic,
   {| Out := Out w; ErrOut := ErrOut w;
      Requests := Requests w ++ (get_request o <$> before ++ [info]) |}).
Proof.
  intros Hb Hq Herr Hinfos Hc Hget Hproj Hobj Hpanic.
  rewrite (Run_reaches_loop _ _ _ _ _ Hb Hq Herr Hinfos).
  rewrite loop_app.
  rewrite (loop_rows o c before objs records initial_state w Hc Hget Hproj).
  simpl. rewrite (loop_body_fetch _ _ _ _ _ Hc). simpl.
  rewrite Hobj, Hpanic. unfold sent. simpl.
  by rewrite fmap_app, app_assoc.
Qed.




(** ** More on Complete *)

(** The options [Complete] leaves when namespace, configuration and client
    are all obtained. *)
Lemma Complete_success (f : Factory) args (o : ListOptions)
    ns enforce config c :
  KubeConfigNamespace f = (ns, enforce, None) ->
  ToRESTConfig f = inr config ->
  NewForConfig config = inr c ->
  Complete f args o =
  (None,
   {| Namespace := ns;
      Describer := Some (DescriberFn f);
      NewBuilder := Some (FactoryNewBuilder f);
      BuilderArgs := BackupJobSourceName :: args;
      EnforceNamespace := if AllNamespaces o then false else enforce;
      AllNamespaces := AllNamespaces o;
      DescriberSettings := DescriberSettings o;
      FilenameOptions := FilenameOptions o;
      client := Some c |}).
Proof.
  intros Hns Hconfig Hclient. unfold Complete.
  by rewrite Hns, Hconfig, Hclient.
Qed.

(** A nil return of [Complete] does not by itself mean the options are
    ready for [Run]. The namespace is the resolved one; but either
    [ToRESTConfig] failed, and then the client and the builder constructor
    are what they were before (nil, for fresh options), or it succeeded,
    and then the client is the one [dynamic.NewForConfig] made from the
    configuration and the builder constructor is the factory's. *)
Theorem Complete_nil_return (f : Factory) args (o o' : ListOptions) :
  Complete f args o = (None, o') ->
  Namespace o' = fst (fst (KubeConfigNamespace f))
  /\ ((exists e,
         ToRESTConfig f = inl e
         /\ client o' = client o
         /\ NewBuilder o' = NewBuilder o)
      \/ (exists config c,
            ToRESTConfig f = inr config
            /\ NewForConfig config = inr c
            /\ client o' = Some c
            /\ NewBuilder o' = Some (FactoryNewBuilder f))).
Proof.
  unfold Complete.
  destruct (KubeConfigNamespace f) as [[ns enforce] [e|]]; [done |].
  simpl.
  destruct (ToRESTConfig f) as [e|config].
  - intros [= <-]. simpl. split; [done |]. left. by exists e.
  - destruct (NewForConfig config) as [e|c] eqn:Hclient; [done |].
    intros [= <-]. simpl. split; [done |]. right. by exists config, c.
Qed.

(** ** NewListCmd *)

(** The query of the command: options completed from the fresh ones ask
    for [list_query]. *)
Lemma query_of_fresh_options (f : Factory) args ns enforce c :
  query
    {| Namespace := ns;
       Describer := Some (DescriberFn f);
       NewBuilder := Some (FactoryNewBuilder f);
       BuilderArgs := BackupJobSourceName :: args;
       EnforceNamespace := enforce;
       AllNamespaces := false;
       DescriberSettings :=
         Some {| describe.ShowEvents := true; describe.ChunkSize := 0 |};
       FilenameOptions :=
         Some {| resource.Filenames := []; resource.Kustomize := "";
                 resource.Recursive_ := false |};
       client := Some c |}
  = Ok (list_query ns enforce args).
Proof. reflexivity. Qed.

(** When the namespace resolves and [ToRESTConfig] fails, an invocation of
    the command neither reports that error nor lists anything: [Complete]
    returns nil, [CheckErr] lets it pass, and [Run] panics on the nil
    [NewBuilder], before any query, request or output. *)
Theorem NewListCmd_crashes_without_config (f : Factory) args w ns enforce e :
  KubeConfigNamespace f = (ns, enforce, None) ->
  ToRESTConfig f = inl e ->
  CmdRun (NewListCmd f) args w = (Crashed, w).
Proof.
  intros Hns Hconfig. simpl. unfold Complete.
  rewrite Hns, Hconfig. reflexivity.
Qed.


(** An invocation of the command that gets its namespace, configuration
    and client, whose query succeeds, and whose matched objects are all
    re-fetched (in the resolved namespace) and projected without panic,
    finishes: it has written the table of those objects, one row each
    under the header, to the output stream; if no object was matched it
    has written "No resources found in <namespace> namespace." to the
    error stream, the all-namespaces wording being out of reach of this
    command; and it has sent one request per object. *)
Theorem NewListCmd_lists (f : Factory) args w ns enforce config c
    infos objs records :
  KubeConfigNamespace f = (ns, enforce, None) ->
  ToRESTConfig f = inr config ->
  NewForConfig config = inr c ->
  Err (Do (FactoryNewBuilder f) (list_query ns enforce args)) = None ->
  Infos (Do (FactoryNewBuilder f) (list_query ns enforce args))
  = (infos, None) ->
  answers c ns (Requests w) infos = inr <$> objs ->
  zip_with project infos objs = Ok <$> records ->
  CmdRun (NewListCmd f) args w =
  (Finished,
   {| Out := Out w ++ [EncodeTable (header :: (row <$> records))];
      ErrOut :=
        match infos with
        | [] =>
          ErrOut w
          ++ ["No resources found in " +:+ ns +:+ " namespace." +:+ newline]
        | _ => ErrOut w
        end;
      Requests := Requests w ++ (request_in ns <$> infos) |}).
Proof.
  intros Hns Hconfig Hclient Herr Hinfos Hget Hproj. simpl.
  rewrite (Complete_success f args _ ns enforce config c Hns Hconfig Hclient).
  simpl.
  erewrite Run_reaches_loop;
    [| reflexivity | apply query_of_fresh_options | apply Herr | apply Hinfos].
  erewrite loop_rows; [| reflexivity | | apply Hproj].
  2:{ rewrite refetch_answers. apply Hget. }
  simpl. destruct infos; reflexivity.
Qed.

(** ** The identity columns of a row *)

(** A guarded read of [phase] or a timestamp leaves name and namespace
    alone. *)
Lemma read_string_field_identity status f set info info' :
  (forall s i, utils.Name (set s i) = utils.Name i
               /\ utils.Namespace (set s i) = utils.Namespace i) ->
  read_string_field status f set info = Ok info' ->
  utils.Name info' = utils.Name info
  /\ utils.Namespace info' = utils.Namespace info.
Proof.
  intros Hset. unfold read_string_field.
  destruct (is_nil (index status f)); [by intros [= <-] |].
  destruct (index status f); simpl; try discriminate.
  intros [= <-]. apply Hset.
Qed.

(** Where the NAMESPACE and NAME cells of a row come from. For an object
    re-fetched without status they are those of the listing entry; for an
    object with a status they are read from the re-fetched object's own
    metadata (and are empty if it carries none), whatever the listing
    said. *)
Theorem project_identity listed obj record :
  project listed obj = Ok record ->
  if is_nil (index (unstructured.Object obj) "status")
  then utils.Name record = resource.Name listed
       /\ utils.Namespace record = resource.Namespace listed
  else utils.Name record = unstructured.GetName obj
       /\ utils.Namespace record = unstructured.GetNamespace obj.
Proof.
  unfold project, buildBackupJobInfo. rewrite range_labels_spec.
  destruct (is_nil (index (unstructured.Object obj) "status")).
  { by intros [= <-]. }
  destruct (index _ "status") as [| | | | | |status]; simpl; try discriminate.
  destruct (read_string_field status "phase" _ _) as [i1|] eqn:H1;
    simpl; [|discriminate].
  destruct (read_string_field status "completionTimestamp" _ _) as [i2|] eqn:H2;
    simpl; [|discriminate].
  destruct (read_string_field status "startTimestamp" _ _) as [i3|] eqn:H3;
    simpl; [|discriminate].
  intros [= <-].
  apply read_string_field_identity in H1 as [N1 S1]; [|done].
  apply read_string_field_identity in H2 as [N2 S2]; [|done].
  apply read_string_field_identity in H3 as [N3 S3]; [|done].
  rewrite N3, N2, N1, S3, S2, S1. done.
Qed.

End ListCommandFacts.

(** ** Map iteration order *)

(** Two guarded reads of the same field into records with equal rows end
    alike: both panic, or both return records with equal rows. *)
Lemma read_string_field_row status f set i1 i2 :
  (forall s j1 j2, row j1 = row j2 -> row (set s j1) = row (set s j2)) ->
  row i1 = row i2 ->
  match read_string_field status f set i1,
        read_string_field status f set i2 with
  | Ok j1, Ok j2 => row j1 = row j2
  | Panic, Panic => True
  | _, _ => False
  end.
Proof.
  intros Hset Hrow. unfold read_string_field.
  destruct (is_nil (index status f)); [done |].
  destruct (index status f); simpl; try done. by apply Hset.
Qed.

(** Records with equal rows still have equal rows after the same field
    assignment. *)
Lemma row_set (set : string -> utils.BackupJobInfo -> utils.BackupJobInfo) :
  set = utils.set_Name \/ set = utils.set_Namespace \/ set = utils.set_Phase
  \/ set = utils.set_CompletionTime \/ set = utils.set_StartTime
  \/ set = utils.set_Labels ->
  forall s j1 j2, row j1 = row j2 -> row (set s j1) = row (set s j2).
Proof.
  intros Hset s [] [].
  destruct Hset as [-> | [-> | [-> | [-> | [-> | ->]]]]];
    unfold row; simpl; intros [=]; congruence.
Qed.

(** Under two iteration orders [buildBackupJobInfo] ends alike: it panics
    under both, or returns records that differ at most in [Labels]. *)
Lemma buildBackupJobInfo_row mr1 mr2 obj info :
  match buildBackupJobInfo mr1 obj info, buildBackupJobInfo mr2 obj info with
  | Ok j1, Ok j2 => row j1 = row j2
  | Panic, Panic => True
  | _, _ => False
  end.
Proof.
  unfold buildBackupJobInfo. rewrite !range_labels_spec.
  set (i1 := utils.set_Labels _ info). set (i2 := utils.set_Labels _ info).
  assert (Hrow : row i1 = row i2) by (by destruct info).
  clearbody i1 i2.
  destruct (is_nil (index (unstructured.Object obj) "status")); [done |].
  destruct (index _ "status") as [| | | | | |status]; simpl; try done.
  apply (row_set utils.set_Name) with (s := unstructured.GetName obj)
    in Hrow; [|tauto].
  apply (row_set utils.set_Namespace)
    with (s := unstructured.GetNamespace obj) in Hrow; [|tauto].
  pose proof (read_string_field_row status "phase" utils.set_Phase _ _
                (row_set utils.set_Phase ltac:(tauto)) Hrow) as H1.
  destruct (read_string_field status "phase" _ _) as [a1|],
           (read_string_field status "phase" _ _) as [b1|];
    simpl; try done.
  pose proof (read_string_field_row status "completionTimestamp"
                utils.set_CompletionTime _ _
                (row_set utils.set_CompletionTime ltac:(tauto)) H1)
    as H2.
  destruct (read_string_field status "completionTimestamp" _ a1) as [a2|],
           (read_string_field status "completionTimestamp" _ b1) as [b2|];
    simpl; try done.
  pose proof (read_string_field_row status "startTimestamp"
                utils.set_StartTime _ _
                (row_set utils.set_StartTime ltac:(tauto)) H2) as H3.
  destruct (read_string_field status "startTimestamp" _ a2) as [a3|],
           (read_string_field status "startTimestamp" _ b2) as [b3|];
    simpl; done.
Qed.

(** So one pass through the loop body ends the same way under both. *)
Lemma loop_body_order {error : Type} `{!GoError error} mr1 mr2
    (o : ListOptions (error:=error)) err info st w :
  loop_body mr1 o err info st w = loop_body mr2 o err info st w.
Proof.
  unfold loop_body. destruct err as [e|]; [done |].
  destruct (client o) as [c|]; [|done].
  destruct (Get c _ _) as [e|obj]; [done |].
  pose proof (buildBackupJobInfo_row mr1 mr2 obj
                (utils.set_Name (resource.Name info)
                   (utils.set_Namespace (resource.Namespace info) utils.zero)))
    as Hrow.
  destruct (buildBackupJobInfo mr1 obj _), (buildBackupJobInfo mr2 obj _);
    try done.
  by rewrite Hrow.
Qed.

(** The order in which the runtime iterates over the label maps has no
    effect on [Run]: the labels are gathered into [Labels], which no row
    shows, so the returned error, a panic, the bytes written and the
    requests sent are the same under any two orders. *)
Theorem Run_iteration_order {error : Type} `{!GoError error} mr1 mr2
    EncodeTable (o : ListOptions (error:=error)) w :
  Run mr1 EncodeTable o w = Run mr2 EncodeTable o w.
Proof.
  assert (Hloop : forall err infos st w0,
            loop mr1 o err infos st w0 = loop mr2 o err infos st w0).
  { intros err infos. induction infos as [|info infos IH]; intros st w0;
      simpl; [done |].
    rewrite (loop_body_order mr1 mr2).
    destruct (loop_body mr2 o err info st w0) as [[st'| |] w']; by rewrite ?IH. }
  unfold Run. destruct (NewBuilder o) as [builder|]; [|done].
  destruct (query o) as [q|]; [|done]. simpl.
  destruct (Err _); [done |].
  destruct (Infos _) as [infos [e|]]; [done |].
  by rewrite Hloop.
Qed.

(** * The theorems at work on the example cluster *)

#[local] Existing Instance Example.message_error.

(** ** Complete *)

(** C1 (the code departs from the claim). Against a factory whose
    namespace resolves and whose [ToRESTConfig] fails, [Complete] returns
    nil: line 102 reads [return nil] where its two siblings read
    [return err]. The options are left without client and without builder
    constructor, and the [Run] that follows panics on the nil
    [NewBuilder]. *)
Theorem Complete_hides_config_error :
  ToRESTConfig (Example.factory_without_config [])
  = inl "invalid configuration: no configuration has been provided"
  /\ fst (Complete Example.BackupJobSourceName Example.NewForConfig
           (Example.factory_without_config []) [] NewListOptions)
     = None
  /\ client (snd (Complete Example.BackupJobSourceName Example.NewForConfig
                   (Example.factory_without_config []) []
                   NewListOptions))
     = None
  /\ fst (Run Example.map_range Example.EncodeTable
           (snd (Complete Example.BackupJobSourceName Example.NewForConfig
                   (Example.factory_without_config []) []
                   NewListOptions))
           Example.quiet)
     = Panic.
Proof. repeat split. Qed.

(** Witness for C9: all namespaces requested against a kubeconfig that
    enforces its namespace. *)
Lemma Complete_builder_args_witness :
  EnforceNamespace
    (snd (Complete Example.BackupJobSourceName Example.NewForConfig
            (Example.factory []) ["nightly"] (Example.fresh true)))
  = false
  /\ BuilderArgs
       (snd (Complete Example.BackupJobSourceName Example.NewForConfig
               (Example.factory []) ["nightly"] (Example.fresh true)))
     = [Example.BackupJobSourceName; "nightly"].
Proof.
  destruct (Complete_builder_args
              Example.BackupJobSourceName Example.NewForConfig
              (Example.factory []) ["nightly"] (Example.fresh true)
              (snd (Complete Example.BackupJobSourceName Example.NewForConfig
                      (Example.factory []) ["nightly"] (Example.fresh true)))
              eq_refl) as (Hall & _ & Hargs & _).
  split; [apply Hall; reflexivity | apply Hargs].
Defined.

(** ** buildBackupJobInfo *)

(** Counterexample to C2 as stated: [pending] carries a name and a
    namespace and has no status, yet the projection of it into a fresh
    record returns with [Name] and [Namespace] empty. *)
Lemma buildBackupJobInfo_without_status_counterexample :
  unstructured.GetName Example.pending = "pending"
  /\ unstructured.GetNamespace Example.pending = "default"
  /\ is_nil (index (unstructured.Object Example.pending) "status") = true
  /\ buildBackupJobInfo Example.map_range Example.pending utils.zero
     = Ok {| utils.Namespace := ""; utils.Name := ""; utils.Phase := "";
             utils.CompletionTime := ""; utils.StartTime := "";
             utils.Labels := "app:mysql " |}.
Proof. repeat split. Qed.

(** Witness for C2: [pending] as the loop of [Run] projects it. *)
Lemma buildBackupJobInfo_without_status_witness :
  exists record,
    project Example.map_range (Example.listed "default" "pending")
      Example.pending = Ok record
    /\ utils.Name record = "pending"
    /\ utils.Namespace record = "default"
    /\ utils.Phase record = ""
    /\ utils.CompletionTime record = ""
    /\ utils.StartTime record = "".
Proof.
  destruct (buildBackupJobInfo_without_status
              Example.map_range Example.pending utils.zero eq_refl)
    as [_ Hlisted].
  apply (Hlisted (Example.listed "default" "pending")).
Defined.

(** Counterexample to C7 as stated: no way of reading the [Labels] string
    back recovers the label mapping of every object, since [one_label] and
    [two_labels] have different mappings and the same [Labels] string. *)
Lemma buildBackupJobInfo_label_pairs_counterexample :
  ~ exists parse : string -> list (string * string),
      forall obj info',
        buildBackupJobInfo Example.map_range obj utils.zero = Ok info' ->
        parse (utils.Labels info')
        ≡ₚ map_to_list (unstructured.GetLabels obj).
Proof.
  intros [parse Hparse].
  pose proof (Hparse Example.one_label _ eq_refl) as Hone.
  pose proof (Hparse Example.two_labels _ eq_refl) as Htwo.
  apply Permutation_length in Hone, Htwo.
  vm_compute in Hone, Htwo. congruence.
Qed.

(** Witness for C7: the two labels of [nightly] are read back from the
    string the projection wrote. *)
Lemma buildBackupJobInfo_label_pairs_witness :
  parse_labels (utils.Labels Example.nightly_record)
  ≡ₚ map_to_list (unstructured.GetLabels Example.nightly).
Proof.
  destruct (buildBackupJobInfo_label_pairs
              Example.map_range Example.nightly utils.zero
              Example.nightly_record
              (fun m => reflexivity (map_to_list m)) eq_refl)
    as (entries & _ & _ & Hread).
  apply Hread; [|reflexivity].
  apply map_Forall_to_list. vm_compute. repeat constructor.
Defined.

(** Witness for C8: a status that is a string, and a phase that is a
    number. *)
Lemma buildBackupJobInfo_panics_witness :
  buildBackupJobInfo Example.map_range Example.garbled utils.zero = Panic
  /\ buildBackupJobInfo Example.map_range Example.numbered utils.zero = Panic.
Proof.
  split; apply buildBackupJobInfo_panics.
  - left. split; [reflexivity |]. intros m. vm_compute. discriminate.
  - right.
    exists (<["phase" := VInt 3]> ∅), "phase".
    split; [reflexivity |]. split; [by left |].
    split; [reflexivity |]. intros s. vm_compute. discriminate.
Defined.

(** ** Run *)

(** Witness for C3: two objects listed, both handled, nil returned. *)
Lemma Run_aggregation_unreachable_witness :
  fst (Run Example.map_range Example.EncodeTable
         (Example.completed false
            [Example.listed "default" "nightly";
             Example.listed "default" "pending"])
         Example.quiet)
  = Ok None.
Proof.
  destruct (Run_aggregation_unreachable
              Example.map_range Example.EncodeTable
              (Example.completed false
                 [Example.listed "default" "nightly";
                  Example.listed "default" "pending"])
              Example.quiet
              (Example.builder
                 [Example.listed "default" "nightly";
                  Example.listed "default" "pending"])
              (Example.asked false)
              [Example.listed "default" "nightly";
               Example.listed "default" "pending"]
              None eq_refl eq_refl eq_refl eq_refl) as [_ Hend].
  eapply Hend. vm_compute. reflexivity.
Defined.

(** Witness for C4: the second of three objects is gone from the cluster;
    the row of the first is dropped and the third is never asked for. *)
Lemma Run_refetch_failure_witness :
  Run Example.map_range Example.EncodeTable
    (Example.completed false
       [Example.listed "default" "nightly";
        Example.listed "default" "gone";
        Example.listed "default" "pending"])
    Example.quiet
  = (Ok (Some "backupjobs gone not found"),
     {| Out := []; ErrOut := [];
        Requests :=
          [{| req_resource := Example.backupjobs;
              req_namespace := "default"; req_name := "nightly" |};
           {| req_resource := Example.backupjobs;
              req_namespace := "default"; req_name := "gone" |}] |}).
Proof.
  apply (Run_refetch_failure
           Example.map_range Example.EncodeTable
           (Example.completed false
              [Example.listed "default" "nightly";
               Example.listed "default" "gone";
               Example.listed "default" "pending"])
           Example.quiet
           (Example.builder
              [Example.listed "default" "nightly";
               Example.listed "default" "gone";
               Example.listed "default" "pending"])
           (Example.asked false)
           Example.cluster
           [Example.listed "default" "nightly"]
           (Example.listed "default" "gone")
           [Example.listed "default" "pending"]
           [Example.nightly] [Example.nightly_record]
           "backupjobs gone not found"
           eq_refl eq_refl eq_refl eq_refl eq_refl eq_refl eq_refl eq_refl).
Defined.

(** Counterexample to C5 as stated: the one matched object is re-fetched
    without error, but its status is a string; [Run] panics in the
    projection, returns nothing and writes nothing. *)
Lemma Run_renders_rows_counterexample :
  refetch Example.cluster
    (Example.completed false [Example.listed "default" "garbled"])
    (Requests Example.quiet) [Example.listed "default" "garbled"]
  = [inr Example.garbled]
  /\ Run Example.map_range Example.EncodeTable
       (Example.completed false [Example.listed "default" "garbled"])
       Example.quiet
     = (Panic,
        {| Out := []; ErrOut := [];
           Requests :=
             [{| req_resource := Example.backupjobs;
                 req_namespace := "default"; req_name := "garbled" |}] |}).
Proof. split; reflexivity. Qed.

(** Witness for C5: two objects, two rows under the header. *)
Lemma Run_renders_rows_witness :
  exists w',
    Run Example.map_range Example.EncodeTable
      (Example.completed false
         [Example.listed "default" "nightly";
          Example.listed "default" "pending"])
      Example.quiet
    = (Ok None, w')
    /\ Out w' =
       [Example.EncodeTable
          [header;
           ["default"; "nightly"; "Completed"; "2022-09-01T02:10:00Z";
            "2022-09-01T02:00:00Z"];
           ["default"; "pending"; ""; ""; ""]]]
    /\ List.length [Example.nightly_record; Example.pending_record] = 2
    /\ Requests w' =
       [{| req_resource := Example.backupjobs;
           req_namespace := "default"; req_name := "nightly" |};
        {| req_resource := Example.backupjobs;
           req_namespace := "default"; req_name := "pending" |}]
    /\ ([Example.listed "default" "nightly";
         Example.listed "default" "pending"] <> [] ->
        ErrOut w' = []).
Proof.
  apply (Run_renders_rows
           Example.map_range Example.EncodeTable
           (Example.completed false
              [Example.listed "default" "nightly";
               Example.listed "default" "pending"])
           Example.quiet
           (Example.builder
              [Example.listed "default" "nightly";
               Example.listed "default" "pending"])
           (Example.asked false)
           Example.cluster
           [Example.listed "default" "nightly";
            Example.listed "default" "pending"]
           [Example.nightly; Example.pending]
           [Example.nightly_record; Example.pending_record]
           eq_refl eq_refl eq_refl eq_refl eq_refl eq_refl eq_refl).
Defined.

(** Witness for C6: nothing matched, with and without the all-namespaces
    flag. *)
Lemma Run_no_resources_witness :
  Run Example.map_range Example.EncodeTable
    (Example.completed true []) Example.quiet
  = (Ok None,
     {| Out := [Example.EncodeTable [header]];
        ErrOut := ["No resources found" +:+ newline];
        Requests := [] |})
  /\ Run Example.map_range Example.EncodeTable
       (Example.completed false []) Example.quiet
     = (Ok None,
        {| Out := [Example.EncodeTable [header]];
           ErrOut := ["No resources found in default namespace." +:+ newline];
           Requests := [] |}).
Proof.
  split.
  - apply (Run_no_resources
             Example.map_range Example.EncodeTable
             (Example.completed true []) Example.quiet
             (Example.builder []) (Example.asked true) []
             eq_refl eq_refl eq_refl eq_refl).
    reflexivity.
  - apply (Run_no_resources
             Example.map_range Example.EncodeTable
             (Example.completed false []) Example.quiet
             (Example.builder []) (Example.asked false) []
             eq_refl eq_refl eq_refl eq_refl).
    reflexivity.
Defined.

(** Witness for C10: in all-namespaces mode two objects are listed in
    namespace "prod". The first is asked for in the resolved namespace
    "default", where another object of that name is found; the second is
    asked for there too, and [Run] returns the not-found error of that
    request. *)
Lemma Run_refetch_namespace_witness :
  Requests
    (snd (Run Example.map_range Example.EncodeTable
            (Example.completed true
               [Example.listed "prod" "nightly";
                Example.listed "prod" "gone"])
            Example.quiet))
  = [{| req_resource := Example.backupjobs;
        req_namespace := "default"; req_name := "nightly" |};
     {| req_resource := Example.backupjobs;
        req_namespace := "default"; req_name := "gone" |}]
  /\ fst (Run Example.map_range Example.EncodeTable
            (Example.completed true
               [Example.listed "prod" "nightly";
                Example.listed "prod" "gone"])
            Example.quiet)
     = Ok (Some "backupjobs gone not found").
Proof.
  destruct (Run_refetch_namespace
              Example.map_range Example.EncodeTable
              (Example.completed true
                 [Example.listed "prod" "nightly";
                  Example.listed "prod" "gone"])
              Example.quiet
              (Example.builder
                 [Example.listed "prod" "nightly";
                  Example.listed "prod" "gone"])
              (Example.asked true)
              [Example.listed "prod" "nightly";
               Example.listed "prod" "gone"]
              None eq_refl eq_refl eq_refl) as [_ Hasked].
  destruct (Hasked Example.cluster
              [Example.listed "prod" "nightly"]
              (Example.listed "prod" "gone") []
              [Example.nightly]
              [{| utils.Namespace := "default"; utils.Name := "nightly";
                  utils.Phase := "Completed";
                  utils.CompletionTime := "2022-09-01T02:10:00Z";
                  utils.StartTime := "2022-09-01T02:00:00Z";
                  utils.Labels := "app:mysql tier:db " |}]
              eq_refl eq_refl eq_refl eq_refl eq_refl eq_refl)
    as (j & Hrequests & _ & Hanswer).
  destruct (Hanswer "backupjobs gone not found" eq_refl) as [Hreturn _].
  split; [|exact Hreturn].
  rewrite Hrequests. destruct j; reflexivity.
Defined.

(** ** Further witnesses *)

(** [running] has a status with a phase and nothing else. *)
Lemma buildBackupJobInfo_with_status_witness :
  exists info',
    buildBackupJobInfo Example.map_range Example.running utils.zero = Ok info'
    /\ utils.Name info' = "running"
    /\ utils.Namespace info' = "default"
    /\ utils.Phase info' = "InProgress"
    /\ utils.CompletionTime info' = ""
    /\ utils.StartTime info' = "".
Proof.
  apply (buildBackupJobInfo_with_status
           Example.map_range Example.running utils.zero
           (<["phase" := VString "InProgress"]> ∅) eq_refl).
  intros f Hf.
  repeat (apply elem_of_cons in Hf as [-> | Hf]).
  - right. by exists "InProgress".
  - by left.
  - by left.
  - by apply elem_of_nil in Hf.
Defined.

(** A kubeconfig that cannot be loaded, and a configuration no client can
    be made from. *)
Lemma Complete_returns_error_witness :
  fst (Complete Example.BackupJobSourceName Example.NewForConfig
         Example.factory_without_namespace [] (Example.fresh false))
  = Some "invalid kubeconfig"
  /\ fst (Complete Example.BackupJobSourceName Example.NewForConfig_failing
           (Example.factory []) [] (Example.fresh false))
     = Some "host must be a URL or a host:port pair".
Proof.
  split.
  - apply (Complete_returns_error
             Example.BackupJobSourceName Example.NewForConfig
             Example.factory_without_namespace [] (Example.fresh false)
             "" false
             {| rest.Host := ""; rest.APIPath := "" |}
             "invalid kubeconfig").
    by left.
  - apply (Complete_returns_error
             Example.BackupJobSourceName Example.NewForConfig_failing
             (Example.factory []) [] (Example.fresh false)
             "default" true
             {| rest.Host := "https://127.0.0.1:6443";
                rest.APIPath := "/apis" |}
             "host must be a URL or a host:port pair").
    right. repeat split.
Defined.

(** The server does not know the resource type. *)
Lemma Run_query_failure_witness :
  Run Example.map_range Example.EncodeTable Example.completed_unserved
    Example.quiet
  = (Ok (Some "the server doesn't have a resource type backupjobs"),
     Example.quiet).
Proof.
  apply (Run_query_failure
           Example.map_range Example.EncodeTable
           Example.completed_unserved Example.quiet
           Example.broken_builder (Example.asked false) []
           (Some "the server doesn't have a resource type backupjobs")
           "the server doesn't have a resource type backupjobs"
           eq_refl eq_refl eq_refl).
  by left.
Defined.

(** ** Witnesses for the further properties *)

(** A garbled object between two sound ones. *)
Lemma Run_projection_panic_witness :
  Run Example.map_range Example.EncodeTable
    (Example.completed false
       [Example.listed "default" "nightly";
        Example.listed "default" "garbled";
        Example.listed "default" "pending"])
    Example.quiet
  = (Panic,
     {| Out := []; ErrOut := [];
        Requests :=
          [{| req_resource := Example.backupjobs;
              req_namespace := "default"; req_name := "nightly" |};
           {| req_resource := Example.backupjobs;
              req_namespace := "default"; req_name := "garbled" |}] |}).
Proof.
  apply (Run_projection_panic
           Example.map_range Example.EncodeTable
           (Example.completed false
              [Example.listed "default" "nightly";
               Example.listed "default" "garbled";
               Example.listed "default" "pending"])
           Example.quiet
           (Example.builder
              [Example.listed "default" "nightly";
               Example.listed "default" "garbled";
               Example.listed "default" "pending"])
           (Example.asked false)
           Example.cluster
           [Example.listed "default" "nightly"]
           (Example.listed "default" "garbled")
           [Example.listed "default" "pending"]
           [Example.nightly] [Example.nightly_record] Example.garbled
           eq_refl eq_refl eq_refl eq_refl eq_refl eq_refl eq_refl eq_refl
           eq_refl).
Defined.



(** A nil return that leaves the options without client. *)
Lemma Complete_nil_return_witness :
  Namespace
    (snd (Complete Example.BackupJobSourceName Example.NewForConfig
            (Example.factory_without_config []) [] (Example.fresh false)))
  = "default"
  /\ ((exists e,
         ToRESTConfig (Example.factory_without_config []) = inl e
         /\ client
              (snd (Complete Example.BackupJobSourceName Example.NewForConfig
                      (Example.factory_without_config []) []
                      (Example.fresh false)))
            = None
         /\ NewBuilder
              (snd (Complete Example.BackupJobSourceName Example.NewForConfig
                      (Example.factory_without_config []) []
                      (Example.fresh false)))
            = None)
      \/ (exists config c,
            ToRESTConfig (Example.factory_without_config []) = inr config
            /\ Example.NewForConfig config = inr c
            /\ client
                 (snd (Complete Example.BackupJobSourceName
                         Example.NewForConfig
                         (Example.factory_without_config []) []
                         (Example.fresh false)))
               = Some c
            /\ NewBuilder
                 (snd (Complete Example.BackupJobSourceName
                         Example.NewForConfig
                         (Example.factory_without_config []) []
                         (Example.fresh false)))
               = Some (FactoryNewBuilder (Example.factory_without_config [])))).
Proof.
  apply (Complete_nil_return
           Example.BackupJobSourceName Example.NewForConfig
           (Example.factory_without_config []) [] (Example.fresh false)
           (snd (Complete Example.BackupJobSourceName Example.NewForConfig
                   (Example.factory_without_config []) []
                   (Example.fresh false)))
           eq_refl).
Defined.

(** The command against a kubeconfig that names no reachable server. *)
Lemma NewListCmd_crashes_without_config_witness :
  CmdRun (NewListCmd Example.map_range Example.BackupJobSourceName
            Example.EncodeTable Example.NewForConfig
            (Example.factory_without_config []))
    [] Example.quiet
  = (Crashed, Example.quiet).
Proof.
  apply (NewListCmd_crashes_without_config
           Example.map_range Example.BackupJobSourceName Example.EncodeTable
           Example.NewForConfig (Example.factory_without_config [])
           [] Example.quiet "default" true
           "invalid configuration: no configuration has been provided"
           eq_refl eq_refl).
Defined.


(** The command against the example cluster, two backup jobs listed. *)
Lemma NewListCmd_lists_witness :
  CmdRun (NewListCmd Example.map_range Example.BackupJobSourceName
            Example.EncodeTable Example.NewForConfig
            (Example.factory
               [Example.listed "default" "nightly";
                Example.listed "default" "pending"]))
    [] Example.quiet
  = (Finished,
     {| Out :=
          [Example.EncodeTable
             [header;
              ["default"; "nightly"; "Completed"; "2022-09-01T02:10:00Z";
               "2022-09-01T02:00:00Z"];
              ["default"; "pending"; ""; ""; ""]]];
        ErrOut := [];
        Requests :=
          [{| req_resource := Example.backupjobs;
              req_namespace := "default"; req_name := "nightly" |};
           {| req_resource := Example.backupjobs;
              req_namespace := "default"; req_name := "pending" |}] |}).
Proof.
  apply (NewListCmd_lists
           Example.map_range Example.BackupJobSourceName Example.EncodeTable
           Example.NewForConfig
           (Example.factory
              [Example.listed "default" "nightly";
               Example.listed "default" "pending"])
           [] Example.quiet "default" true
           {| rest.Host := "https://127.0.0.1:6443"; rest.APIPath := "/apis" |}
           Example.cluster
           [Example.listed "default" "nightly";
            Example.listed "default" "pending"]
           [Example.nightly; Example.pending]
           [Example.nightly_record; Example.pending_record]
           eq_refl eq_refl eq_refl eq_refl eq_refl eq_refl eq_refl).
Defined.

(** [nightly] listed under namespace "prod": its row says "default", the
    namespace the re-fetched object carries. *)
Lemma project_identity_witness :
  utils.Name Example.nightly_record = unstructured.GetName Example.nightly
  /\ utils.Namespace Example.nightly_record = "default".
Proof.
  apply (project_identity
           Example.map_range (Example.listed "prod" "nightly")
           Example.nightly Example.nightly_record eq_refl).
Defined.
